(** * Background script of the Nomee extension: a shallow embedding

    The module-level variables of the background script, the
    [chrome.storage.sync] area, the badge of each tab and the requests sent
    to the name registry are gathered in one record, [World]; every handler
    of the script is a function from worlds to worlds.  What the browser
    decides (the hostname of a URL, the reply of the registry, whether a
    storage call is rejected, which tab is active, the clock) is an input
    of the handlers, gathered in [Env]. *)

From Stdlib Require Import String Ascii List ZArith Bool Arith Lia.
Import ListNotations.
Open Scope string_scope.

(** ** Strings the way the script uses them *)

Module JsString.

(** [String.prototype.toLowerCase] on the characters a hostname holds
    (hostnames delivered by [URL] are ASCII). *)
Definition lower_char (c : ascii) : ascii :=
  let n := nat_of_ascii c in
  if ((65 <=? n) && (n <=? 90))%nat then ascii_of_nat (n + 32) else c.

Fixpoint toLowerCase (s : string) : string :=
  match s with
  | EmptyString => EmptyString
  | String c r => String (lower_char c) (toLowerCase r)
  end.

(** [s.startsWith(p)] *)
Fixpoint startsWith (p s : string) : bool :=
  match p, s with
  | EmptyString, _ => true
  | String a p', String b s' => Ascii.eqb a b && startsWith p' s'
  | String _ _, EmptyString => false
  end.

(** [s.substring(n)]: the characters from index [n] on. *)
Fixpoint substring_from (n : nat) (s : string) : string :=
  match n, s with
  | O, _ => s
  | S n', String _ r => substring_from n' r
  | S _, EmptyString => EmptyString
  end.

(** [s.includes(needle)] *)
Fixpoint includes (needle s : string) : bool :=
  startsWith needle s ||
  match s with
  | EmptyString => false
  | String _ r => includes needle r
  end.

(** [s.split(sep)] for a one-character separator. *)
Fixpoint split (sep : ascii) (s : string) : list string :=
  match s with
  | EmptyString => [EmptyString]
  | String c r =>
      if Ascii.eqb c sep then EmptyString :: split sep r
      else match split sep r with
           | p :: ps => String c p :: ps
           | [] => [String c EmptyString]
           end
  end.

(** Truthiness of a value that is a string, [null] or [undefined]. *)
Definition truthy (o : option string) : bool :=
  match o with
  | Some s => negb (s =? "")
  | None => false
  end.

(** [a === b] on values that are strings or [null]. *)
Definition strict_eq (a b : option string) : bool :=
  match a, b with
  | Some x, Some y => x =? y
  | None, None => true
  | _, _ => false
  end.

(** [arr.includes(x)] on an array of strings. *)
Definition array_includes (x : string) (arr : list string) : bool :=
  existsb (fun y => y =? x) arr.

End JsString.
Import JsString.

(** ** Domain Extractor *)

Section DomainExtractor.

(** [new URL(url).hostname]: [None] when the constructor throws. *)
Variable URL_hostname : string -> option string.

Definition extractDomain (url : option string) : option string :=
  if negb (truthy url) then None
  else match url with
       | None => None
       | Some u =>
           match URL_hostname u with
           | None => None
           | Some host =>
               let hostname := toLowerCase host in
               let hostname :=
                 if startsWith "www." hostname
                 then substring_from 4 hostname else hostname in
               if negb (includes "." hostname) || (String.length hostname <? 3)%nat
               then None
               else Some hostname
           end
       end.

End DomainExtractor.

(** The wording of the specification, to compare [extractDomain] with:
    one leading "www." is stripped, and a domain holds a "." and
    at least three characters. *)
Definition strip_one_www (h : string) : string :=
  match h with
  | String "w" (String "w" (String "w" (String "." rest))) => rest
  | _ => h
  end.

Definition has_dot (d : string) : Prop := In "."%char (list_ascii_of_string d).

Definition valid_domain (d : string) : Prop := has_dot d /\ 3 <= String.length d.

(** A hostname oracle for the examples: [https://HOST/...] has the
    hostname [HOST] in lower case, anything else is refused. *)
Fixpoint upto_slash (s : string) : string :=
  match s with
  | EmptyString => EmptyString
  | String c r => if Ascii.eqb c "/" then EmptyString else String c (upto_slash r)
  end.

Definition https_hostname (u : string) : option string :=
  if startsWith "https://" u
  then Some (toLowerCase (upto_slash (substring_from 8 u)))
  else None.

(** ** Data of the background script *)

(** A value kept under a storage key that the script compares with
    [false]. *)
Inductive JsValue : Type :=
| JsUndefined
| JsNull
| JsBool (b : bool)
| JsNumber (n : Z)
| JsString (s : string).

(** [v !== false] *)
Definition strict_neq_false (v : JsValue) : bool :=
  match v with
  | JsBool false => false
  | _ => true
  end.

(** [RecentChat] of the type declarations. *)
Record RecentChat : Type := mkRecentChat {
  chat_domain : string;
  chat_ethAddress : string;
  chat_price : option string;
  chat_decimals : option Z;
  chat_currency : option string;
  chat_timestamp : Z
}.

(** [chat => chat.domain !== domain], the test of the two filters. *)
Definition other_domain (domain : string) (chat : RecentChat) : bool :=
  negb (chat_domain chat =? domain).

(** The synchronized storage area; a key that was never written is
    [JsUndefined] or [None]. *)
Record Storage : Type := mkStorage {
  extensionEnabled : JsValue;
  blacklistedDomains : option (list string);
  recentChats : option (list RecentChat)
}.

(** [result.blacklistedDomains || []] and [result.recentChats || []] *)
Definition or_empty {A : Type} (o : option (list A)) : list A :=
  match o with
  | Some l => l
  | None => []
  end.

(** [chrome.tabs.Tab], the two fields the script reads. *)
Record Tab : Type := mkTab {
  tab_id : option Z;
  tab_url : option string
}.

(** Truthiness of [tab.id]. *)
Definition truthy_id (o : option Z) : bool :=
  match o with
  | Some n => negb (n =? 0)%Z
  | None => false
  end.

(** The answer of the registry to the name query. *)
Record Currency : Type := mkCurrency {
  symbol : option string;
  currency_decimals : option Z
}.

Record Listing : Type := mkListing {
  listing_price : option string;
  listing_currency : option Currency
}.

Record Token : Type := mkToken {
  listings : option (list Listing)
}.

Record NameData : Type := mkNameData {
  claimedBy : option string;
  tokens : option (list Token)
}.

Record GraphQLBody : Type := mkBody {
  body_errors : option (list string);
  body_data : option (option NameData)
}.

(** What [fetch] and [response.json()] come back with. *)
Inductive FetchResult : Type :=
| FetchRejected
| NotOk (status : Z)
| JsonRejected
| Json (body : GraphQLBody).

(** What the script asks of the browser, newest first. *)
Inductive Effect : Type :=
| SetBadgeText (tabId : Z) (text : string)
| SetBadgeBackgroundColor (tabId : Z) (color : string)
| PopupTimer (domain : string)
| Fetch (domain : string)
| UnhandledRejection.

(** The module-level variables, the storage area and the effects so far. *)
Record World : Type := mkWorld {
  isExtensionEnabled : bool;
  currentDomain : option string;
  ethAddress : option string;
  price : option string;
  decimals : option Z;
  currency : option string;
  cachedBlacklistedDomains : list string;
  storage : Storage;
  effects : list Effect
}.

(** The script as loaded, over an empty storage area. *)
Definition initial_world : World :=
  mkWorld true None None None None None []
          (mkStorage JsUndefined None None) [].

Definition set_enabled (b : bool) (w : World) : World :=
  mkWorld b (currentDomain w) (ethAddress w) (price w) (decimals w)
          (currency w) (cachedBlacklistedDomains w) (storage w) (effects w).

Definition set_currentDomain (d : option string) (w : World) : World :=
  mkWorld (isExtensionEnabled w) d (ethAddress w) (price w) (decimals w)
          (currency w) (cachedBlacklistedDomains w) (storage w) (effects w).

Definition set_owner (a p : option string) (d : option Z) (c : option string)
    (w : World) : World :=
  mkWorld (isExtensionEnabled w) (currentDomain w) a p d c
          (cachedBlacklistedDomains w) (storage w) (effects w).

(** The four assignments of [undefined]. *)
Definition clear_owner (w : World) : World := set_owner None None None None w.

Definition set_cache (l : list string) (w : World) : World :=
  mkWorld (isExtensionEnabled w) (currentDomain w) (ethAddress w) (price w)
          (decimals w) (currency w) l (storage w) (effects w).

Definition set_storage (s : Storage) (w : World) : World :=
  mkWorld (isExtensionEnabled w) (currentDomain w) (ethAddress w) (price w)
          (decimals w) (currency w) (cachedBlacklistedDomains w) s (effects w).

Definition emit (e : Effect) (w : World) : World :=
  mkWorld (isExtensionEnabled w) (currentDomain w) (ethAddress w) (price w)
          (decimals w) (currency w) (cachedBlacklistedDomains w) (storage w)
          (e :: effects w).

(** The text last set on the badge of a tab, if any was. *)
Fixpoint badgeText (tabId : Z) (log : list Effect) : option string :=
  match log with
  | [] => None
  | SetBadgeText i t :: rest => if (i =? tabId)%Z then Some t else badgeText tabId rest
  | _ :: rest => badgeText tabId rest
  end.

(** The module-level variables alone. *)
Definition memory (w : World) :=
  (isExtensionEnabled w, currentDomain w, ethAddress w, price w, decimals w,
   currency w, cachedBlacklistedDomains w).

(** ** What the browser decides *)

Inductive StorageFault : Type := NoFault | GetRejects | SetRejects.

Record Env : Type := mkEnv {
  registry : string -> FetchResult;   (* the reply to the query for a name *)
  storageFault : StorageFault;        (* which storage call is rejected *)
  activeTab : option Tab;             (* tabs[0] of the active-tab query *)
  clock : Z                           (* Date.now() *)
}.

(** How an un-awaited promise ends. *)
Inductive Settled : Type := Fulfilled | Rejected.

(** [await chrome.storage.sync.get(...)] *)
Definition storage_get (env : Env) (w : World) : option Storage :=
  match storageFault env with
  | GetRejects => None
  | _ => Some (storage w)
  end.

(** [await chrome.storage.sync.set(...)]: the keys given are replaced, the
    others are kept. *)
Definition storage_set (env : Env) (write : Storage -> Storage) (w : World)
    : option World :=
  match storageFault env with
  | SetRejects => None
  | _ => Some (set_storage (write (storage w)) w)
  end.

Definition write_extensionEnabled (b : bool) (s : Storage) : Storage :=
  mkStorage (JsBool b) (blacklistedDomains s) (recentChats s).

Definition write_blacklistedDomains (l : list string) (s : Storage) : Storage :=
  mkStorage (extensionEnabled s) (Some l) (recentChats s).

Definition write_recentChats (l : list RecentChat) (s : Storage) : Storage :=
  mkStorage (extensionEnabled s) (blacklistedDomains s) (Some l).

(** ** Name Resolver *)

(** The object [parseCAIP10] returns; [parts[i]] past the end is absent. *)
Record CAIP10 : Type := mkCAIP10 {
  namespace : option string;
  chainId : option string;
  address : option string
}.

Definition parseCAIP10 (input : string) : CAIP10 :=
  let parts := split ":" input in
  mkCAIP10 (nth_error parts 0) (nth_error parts 1) (nth_error parts 2).

(** The body of [resolveNameAddress] after the request was sent: every
    failure ends in the [catch] and gives [null]. *)
Definition resolveNameAddress (r : FetchResult) : option NameData :=
  match r with
  | FetchRejected => None
  | NotOk _ => None
  | JsonRejected => None
  | Json data =>
      match body_errors data with
      | Some (_ :: _) => None
      | _ =>
          match body_data data with
          | None => None               (* data.data is missing: TypeError *)
          | Some name => name
          end
      end
  end.

Record Amount : Type := mkAmount {
  amount_price : option string;
  amount_decimals : option Z;
  amount_currency : option string
}.

Definition extractPriceFromName (nameData : NameData) : option Amount :=
  match tokens nameData with
  | Some (token :: _) =>
      match listings token with
      | Some (listing :: _) =>
          Some (mkAmount
                  (listing_price listing)
                  (match listing_currency listing with
                   | Some c => currency_decimals c
                   | None => None
                   end)
                  (match listing_currency listing with
                   | Some c => symbol c
                   | None => None
                   end))
      | _ => None
      end
  | _ => None
  end.

(** ** Tab Monitor and Message Router *)

Inductive Request : Type :=
| GetStatus
| AddToRecentChats (domain ethAddress : string) (price : option string)
                   (decimals : option Z) (currency : option string)
| GetRecentChats
| RemoveFromRecentChats (domain : string)
| AddToBlacklist (domain : string)
| GetBlacklist
| RemoveFromBlacklist (domain : string)
| ToggleExtension
| OtherAction.

(** The argument of [sendResponse]. *)
Inductive Reply : Type :=
| StatusReply (enabled : bool) (domain ethAddress price : option string)
              (decimals : option Z) (currency : option string)
| SuccessReply (success : bool)
| RecentChatsReply (chats : list RecentChat)
| BlacklistReply (domains : list string)
| EnabledReply (enabled : bool).

Section Background.

Variable URL_hostname : string -> option string.

Definition shouldAutoOpenPopup (env : Env) (domain : string) (w : World)
    : bool :=
  match storage_get env w with
  | None => false                      (* the catch: no popup *)
  | Some result =>
      let recent := or_empty (recentChats result) in
      let blacklisted := or_empty (blacklistedDomains result) in
      let isInRecentChats :=
        existsb (fun chat => chat_domain chat =? domain) recent in
      let isBlacklisted := array_includes domain blacklisted in
      negb isInRecentChats && negb isBlacklisted
  end.

(** [if (tab.id) chrome.action.setBadgeText({ text: "", tabId: tab.id })] *)
Definition clearBadge (tab : Tab) (w : World) : World :=
  match tab_id tab with
  | Some i => if truthy_id (Some i) then emit (SetBadgeText i "") w else w
  | None => w
  end.

(** [handleTabUpdate] up to its first [await]: the world, and the domain
    to resolve when the handler goes on. *)
Definition handleTabUpdate_begin (tab : Tab) (w : World)
    : World * option string :=
  if negb (isExtensionEnabled w) then (w, None)
  else
    let domain := extractDomain URL_hostname (tab_url tab) in
    if strict_eq domain (currentDomain w) then (w, None)
    else
      let w := set_currentDomain domain w in
      match domain with
      | Some d =>
          if truthy domain
             && negb (array_includes d (cachedBlacklistedDomains w))
          then (w, Some d)
          else (if truthy_id (tab_id tab)
                then clear_owner (clearBadge tab w) else w, None)
      | None =>
          (if truthy_id (tab_id tab)
           then clear_owner (clearBadge tab w) else w, None)
      end.

(** From [await shouldAutoOpenPopup(domain)] to the request sent by
    [resolveNameAddress]. *)
Definition handleTabUpdate_request (env : Env) (domain : string) (w : World)
    : World * bool :=
  (emit (Fetch domain) w, shouldAutoOpenPopup env domain w).

(** [handleTabUpdate] from the reply of the registry to its end. *)
Definition handleTabUpdate_settle (tab : Tab) (domain : string)
    (shouldShowPopup : bool) (reply : FetchResult) (w : World) : World :=
  match resolveNameAddress reply with
  | None => w                                  (* if (!nameData) return; *)
  | Some nameData =>
      let amount := extractPriceFromName nameData in
      match claimedBy nameData with
      | None =>
          (* parseCAIP10 throws on a missing identifier: the catch *)
          clearBadge tab (clear_owner w)
      | Some owner =>
          let w :=
            set_owner (address (parseCAIP10 owner))
                      (match amount with Some a => amount_price a | None => None end)
                      (match amount with Some a => amount_decimals a | None => None end)
                      (match amount with Some a => amount_currency a | None => None end)
                      w in
          match tab_id tab with
          | Some i =>
              if truthy (ethAddress w) && truthy_id (Some i) then
                let w := emit (SetBadgeText i "●") w in
                let w := emit (SetBadgeBackgroundColor i "#10B981") w in
                if shouldShowPopup then emit (PopupTimer domain) w else w
              else clearBadge tab w
          | None => w
          end
      end
  end.

(** [handleTabUpdate] run from start to end with no other handler in
    between. *)
Definition handleTabUpdate (env : Env) (tab : Tab) (w : World) : World :=
  match handleTabUpdate_begin tab w with
  | (w1, None) => w1
  | (w1, Some domain) =>
      let (w2, shouldShowPopup) := handleTabUpdate_request env domain w1 in
      handleTabUpdate_settle tab domain shouldShowPopup (registry env domain) w2
  end.

(** The callback of [chrome.runtime.onInstalled], given the items read. *)
Definition onInstalled (result : Storage) (w : World) : World :=
  set_cache (or_empty (blacklistedDomains result))
            (set_enabled (strict_neq_false (extensionEnabled result)) w).

Definition addToRecentChats (env : Env) (domain ethAddress : string)
    (price : option string) (decimals : option Z) (currency : option string)
    (w : World) : World * Settled :=
  match storage_get env w with
  | None => (w, Rejected)
  | Some result =>
      let recent := or_empty (recentChats result) in
      let recent := filter (other_domain domain) recent in
      let recent :=
        mkRecentChat domain ethAddress price decimals currency (clock env)
        :: recent in
      let recent := firstn 10 recent in
      match storage_set env (write_recentChats recent) w with
      | None => (w, Rejected)
      | Some w' => (w', Fulfilled)
      end
  end.

Definition removeFromRecentChats (env : Env) (domain : string) (w : World)
    : World * Settled :=
  match storage_get env w with
  | None => (w, Rejected)
  | Some result =>
      let recent := or_empty (recentChats result) in
      let recent := filter (other_domain domain) recent in
      match storage_set env (write_recentChats recent) w with
      | None => (w, Rejected)
      | Some w' => (w', Fulfilled)
      end
  end.

Definition addToBlacklist (env : Env) (domain : string) (w : World)
    : World * Settled :=
  match storage_get env w with
  | None => (w, Rejected)
  | Some result =>
      let blacklisted := or_empty (blacklistedDomains result) in
      if negb (array_includes domain blacklisted) then
        let blacklisted := (blacklisted ++ [domain])%list in
        match storage_set env (write_blacklistedDomains blacklisted) w with
        | None => (w, Rejected)
        | Some w =>
            let w := set_cache blacklisted w in
            (* the callback of the active-tab query *)
            match activeTab env with
            | Some tab0 =>
                if truthy_id (tab_id tab0)
                   && strict_eq (extractDomain URL_hostname (tab_url tab0))
                                (Some domain)
                then (clear_owner (clearBadge tab0 w), Fulfilled)
                else (w, Fulfilled)
            | None => (w, Fulfilled)
            end
        end
      else (w, Fulfilled)
  end.

Definition removeFromBlacklist (env : Env) (domain : string) (w : World)
    : World * Settled :=
  match storage_get env w with
  | None => (w, Rejected)
  | Some result =>
      let blacklisted := or_empty (blacklistedDomains result) in
      let blacklisted := filter (fun d => negb (d =? domain)) blacklisted in
      match storage_set env (write_blacklistedDomains blacklisted) w with
      | None => (w, Rejected)
      | Some w =>
          let w := set_cache blacklisted w in
          match activeTab env with
          | Some tab0 =>
              if strict_eq (extractDomain URL_hostname (tab_url tab0))
                           (Some domain)
              then (handleTabUpdate env tab0 w, Fulfilled)
              else (w, Fulfilled)
          | None => (w, Fulfilled)
          end
      end
  end.

(** A promise nobody awaits: a rejection is only reported. *)
Definition detach (r : World * Settled) : World :=
  match r with
  | (w, Fulfilled) => w
  | (w, Rejected) => emit UnhandledRejection w
  end.

(** The listener of [chrome.runtime.onMessage], with the handlers it
    starts run to their end: the world, and what [sendResponse] got. *)
Definition onMessage (env : Env) (request : Request) (w : World)
    : World * option Reply :=
  match request with
  | GetStatus =>
      (w, Some (StatusReply (isExtensionEnabled w) (currentDomain w)
                            (ethAddress w) (price w) (decimals w)
                            (currency w)))
  | AddToRecentChats domain a p d c =>
      (detach (addToRecentChats env domain a p d c w),
       Some (SuccessReply true))
  | GetRecentChats =>
      match storage_get env w with
      | Some result =>
          (w, Some (RecentChatsReply (or_empty (recentChats result))))
      | None => (w, None)
      end
  | RemoveFromRecentChats domain =>
      (detach (removeFromRecentChats env domain w), Some (SuccessReply true))
  | AddToBlacklist domain =>
      (detach (addToBlacklist env domain w), Some (SuccessReply true))
  | GetBlacklist =>
      match storage_get env w with
      | Some result =>
          (w, Some (BlacklistReply (or_empty (blacklistedDomains result))))
      | None => (w, None)
      end
  | RemoveFromBlacklist domain =>
      (detach (removeFromBlacklist env domain w), Some (SuccessReply true))
  | ToggleExtension =>
      let w := set_enabled (negb (isExtensionEnabled w)) w in
      let w :=
        match storage_set env (write_extensionEnabled (isExtensionEnabled w)) w with
        | Some w' => w'
        | None => emit UnhandledRejection w
        end in
      let w :=
        if negb (isExtensionEnabled w) then
          match activeTab env with
          | Some tab0 => clearBadge tab0 w
          | None => w
          end
        else
          let w := clear_owner w in
          match activeTab env with
          | Some tab0 => handleTabUpdate env tab0 w
          | None => w
          end in
      (w, Some (EnabledReply (isExtensionEnabled w)))
  | OtherAction => (w, None)
  end.

End Background.

(** ** Recent contacts: the wording of the specification *)

Definition stored_chats (w : World) : list RecentChat :=
  or_empty (recentChats (storage w)).

Definition stored_blacklist (w : World) : list string :=
  or_empty (blacklistedDomains (storage w)).

(** One [addToRecentChats] request, with the browser as it was then. *)
Record AddCall : Type := mkAddCall {
  call_env : Env;
  call_domain : string;
  call_ethAddress : string;
  call_price : option string;
  call_decimals : option Z;
  call_currency : option string
}.

Definition request_of (c : AddCall) : Request :=
  AddToRecentChats (call_domain c) (call_ethAddress c) (call_price c)
                   (call_decimals c) (call_currency c).

(** The entry a call stores. *)
Definition entry_of (c : AddCall) : RecentChat :=
  mkRecentChat (call_domain c) (call_ethAddress c) (call_price c)
               (call_decimals c) (call_currency c) (clock (call_env c)).

(** The requests of a list, sent one after the other. *)
Fixpoint after_adds (URL_hostname : string -> option string)
    (calls : list AddCall) (w : World) : World :=
  match calls with
  | [] => w
  | c :: rest =>
      after_adds URL_hostname rest
                 (fst (onMessage URL_hostname (call_env c) (request_of c) w))
  end.

(** Of a history given newest first, the newest entry of each domain. *)
Fixpoint latest_per_domain (history : list RecentChat) : list RecentChat :=
  match history with
  | [] => []
  | c :: older =>
      c :: filter (other_domain (chat_domain c)) (latest_per_domain older)
  end.

(** Most recent first, one entry per domain, at most ten. *)
Definition most_recent_first (history : list RecentChat) : list RecentChat :=
  firstn 10 (latest_per_domain history).

(** Whether a request changes a stored collection. *)
Definition is_mutation (r : Request) : bool :=
  match r with
  | AddToRecentChats _ _ _ _ _ | RemoveFromRecentChats _
  | AddToBlacklist _ | RemoveFromBlacklist _ => true
  | _ => false
  end.

(** ** Sample browser data for the scenarios *)

Definition found_reply (owner : string) (sale : option (list Token))
    : FetchResult :=
  Json (mkBody None (Some (Some (mkNameData (Some owner) sale)))).

Definition not_found_reply : FetchResult := Json (mkBody None (Some None)).

Definition one_listing : option (list Token) :=
  Some [mkToken (Some [mkListing (Some "2500000")
                                 (Some (mkCurrency (Some "USDC") (Some 6%Z)))])].

(** example.com and second.io are claimed, shop.net is claimed by a
    two-segment identifier and is listed, other.org is not registered, the
    answer for broken.dev lacks the owner identifier, and the request fails
    for any other name. *)
Definition sample_registry (d : string) : FetchResult :=
  if d =? "example.com" then found_reply "eip155:1:0xabc" None
  else if d =? "shop.net" then found_reply "eip155:1" one_listing
  else if d =? "other.org" then not_found_reply
  else if d =? "second.io" then found_reply "eip155:1:0xdef" None
  else if d =? "broken.dev" then Json (mkBody None (Some (Some (mkNameData None None))))
  else FetchRejected.

Definition tab_example : Tab := mkTab (Some 7%Z) (Some "https://www.Example.com/").
Definition tab_other : Tab := mkTab (Some 7%Z) (Some "https://other.org/news").
Definition tab_shop : Tab := mkTab (Some 7%Z) (Some "https://shop.net/").
Definition tab_second : Tab := mkTab (Some 7%Z) (Some "https://second.io/").
Definition tab_broken : Tab := mkTab (Some 7%Z) (Some "https://broken.dev/").

Definition sample_env : Env := mkEnv sample_registry NoFault (Some tab_example) 1000.

Definition failing_env (f : StorageFault) : Env :=
  mkEnv sample_registry f (Some tab_example) 1000.

(** The first navigation of a fresh script to example.com. *)
Definition on_example : World :=
  handleTabUpdate https_hostname sample_env tab_example initial_world.

(** Scenario D: two requests for one domain, with different prices. *)
Definition call_first : AddCall :=
  mkAddCall sample_env "example.com" "0xabc" (Some "100") (Some 6%Z) (Some "USDC").

Definition call_second : AddCall :=
  mkAddCall (mkEnv sample_registry NoFault None 2000)
            "example.com" "0xabc" (Some "250") (Some 6%Z) (Some "USDC").

(** A resolution for example.com is in flight when the tab moves on to
    second.io, which resolves; the reply for example.com comes last. *)
Definition example_in_flight : World :=
  fst (handleTabUpdate_request sample_env "example.com"
         (fst (handleTabUpdate_begin https_hostname tab_example initial_world))).

Definition on_second : World :=
  handleTabUpdate https_hostname sample_env tab_second example_in_flight.

Definition stale_reply_arrived : World :=
  handleTabUpdate_settle tab_example "example.com" true
                         (sample_registry "example.com") on_second.

(** example.com was blacklisted by an earlier request. *)
Definition already_blacklisted : World :=
  fst (onMessage https_hostname sample_env (AddToBlacklist "example.com")
         initial_world).

(** The blacklist round trip for example.com. *)
Definition round_trip (w : World) : World :=
  fst (onMessage https_hostname sample_env (RemoveFromBlacklist "example.com")
         (fst (onMessage https_hostname sample_env
                 (AddToBlacklist "example.com") w))).

(** The browser while another tab, on other.org, is the active one. *)
Definition elsewhere_env : Env :=
  mkEnv sample_registry NoFault (Some tab_other) 1000.

(** example.com resolved, then monitoring toggled off. *)
Definition toggled_off : World :=
  fst (onMessage https_hostname sample_env ToggleExtension on_example).

(** ** Tab listeners and the sequence of events *)

(** The listener of [chrome.tabs.onUpdated]; [status] is
    [changeInfo.status]. *)
Definition onUpdated (URL_hostname : string -> option string) (env : Env)
    (status : option string) (tab : Tab) (w : World) : World :=
  if strict_eq status (Some "complete") && truthy (tab_url tab)
  then handleTabUpdate URL_hostname env tab w
  else w.

(** The listener of [chrome.tabs.onActivated], from the callback of
    [chrome.tabs.get] on: [tab] is the tab that was activated. *)
Definition onActivated (URL_hostname : string -> option string) (env : Env)
    (tab : Tab) (w : World) : World :=
  if truthy (tab_url tab)
  then handleTabUpdate URL_hostname env tab w
  else w.

(** The listener of [chrome.runtime.onInstalled], the items being read
    from the storage area; a read that fails leaves the variables alone. *)
Definition installed (env : Env) (w : World) : World :=
  match storage_get env w with
  | Some result => onInstalled result w
  | None => w
  end.

(** The script as loaded again over a storage area that earlier runs have
    written: the variables have their initial values. *)
Definition restarted_world (s : Storage) : World :=
  set_storage s initial_world.

(** What the browser delivers to the background script. *)
Inductive Event : Type :=
| Installed
| TabUpdated (status : option string) (tab : Tab)
| TabActivated (tab : Tab)
| Message (request : Request).

Definition step (URL_hostname : string -> option string) (env : Env)
    (e : Event) (w : World) : World :=
  match e with
  | Installed => installed env w
  | TabUpdated status tab => onUpdated URL_hostname env status tab w
  | TabActivated tab => onActivated URL_hostname env tab w
  | Message request => fst (onMessage URL_hostname env request w)
  end.

(** Events handled one after the other, each with the browser as it is
    when the event comes. *)
Fixpoint run (URL_hostname : string -> option string)
    (trace : list (Env * Event)) (w : World) : World :=
  match trace with
  | [] => w
  | (env, e) :: rest => run URL_hostname rest (step URL_hostname env e w)
  end.

(** ** The two halves of a removal *)

(** [removeFromRecentChats] up to the end of its first [await]: the list
    that was read. *)
Definition removeFromRecentChats_read (env : Env) (w : World)
    : option (list RecentChat) :=
  match storage_get env w with
  | None => None
  | Some result => Some (or_empty (recentChats result))
  end.

(** [removeFromRecentChats] from the list that was read to its end. *)
Definition removeFromRecentChats_write (env : Env) (domain : string)
    (recent : list RecentChat) (w : World) : World * Settled :=
  let recent := filter (other_domain domain) recent in
  match storage_set env (write_recentChats recent) w with
  | None => (w, Rejected)
  | Some w' => (w', Fulfilled)
  end.

(** ** Popup: the display of an address *)

Module Popup.

(** [s.slice(start, end)]; [stop] is absent when the call has one
    argument. *)
Definition slice (start : Z) (stop : option Z) (s : string) : string :=
  let len := Z.of_nat (String.length s) in
  let clamp (i : Z) :=
    if (i <? 0)%Z then Z.max (len + i) 0 else Z.min i len in
  let from := clamp start in
  let to := match stop with Some e => clamp e | None => len end in
  String.substring (Z.to_nat from) (Z.to_nat (to - from)) s.

Definition formatAddress (address : option string) : string :=
  if negb (truthy address) then ""
  else match address with
       | None => ""
       | Some a =>
           if (String.length a <? 10)%nat then a
           else slice 0 (Some 6%Z) a ++ "..." ++ slice (-4) None a
       end.

End Popup.

(** ** Vocabulary of the further properties *)

Definition is_fetch (e : Effect) : bool :=
  match e with
  | Fetch _ => true
  | _ => false
  end.

(** What the stored collections and the cached blacklist satisfy at any
    time: the cache is the stored blacklist, no domain is blacklisted twice,
    and the recent contacts are at most ten with one entry per domain. *)
Definition store_invariant (w : World) : Prop :=
  cachedBlacklistedDomains w = stored_blacklist w
  /\ NoDup (stored_blacklist w)
  /\ length (stored_chats w) <= 10
  /\ NoDup (map chat_domain (stored_chats w)).

(** One [removeFromRecentChats] request per domain, as the popup sends them
    to clear the list, handled one after the other. *)
Definition removal_requests (env : Env) (domains : list string)
    : list (Env * Event) :=
  map (fun d => (env, Message (RemoveFromRecentChats d))) domains.

(** The same removals when each handler has read the list [recent] before
    any of them writes: the writes, in the order of the domains. *)
Definition writes_after_reads (env : Env) (recent : list RecentChat)
    (domains : list string) (w : World) : World :=
  fold_left (fun w0 d => fst (removeFromRecentChats_write env d recent w0))
            domains w.

(** The number of occurrences of a character in a string. *)
Fixpoint count_char (c : ascii) (s : string) : nat :=
  match s with
  | EmptyString => 0
  | String x r => (if Ascii.eqb x c then 1 else 0) + count_char c r
  end.

(** ** Settings: the test of a domain typed by the user *)

Module Regex.

(** Regular expressions over characters, as far as [domainRegex] needs
    them; a whole-string match, as between [^] and [$]. *)
Inductive re : Type :=
| Void
| Eps
| Class (p : ascii -> bool)
| Cat (a b : re)
| Alt (a b : re)
| Star (a : re).

(** [r{0,n}] *)
Fixpoint upto (n : nat) (r : re) : re :=
  match n with
  | O => Eps
  | S k => Alt Eps (Cat r (upto k r))
  end.

Fixpoint nullable (r : re) : bool :=
  match r with
  | Void => false
  | Eps => true
  | Class _ => false
  | Cat a b => if nullable a then nullable b else false
  | Alt a b => if nullable a then true else nullable b
  | Star _ => true
  end.

(** What is left to match after the character [c]. *)
Fixpoint deriv (c : ascii) (r : re) : re :=
  match r with
  | Void => Void
  | Eps => Void
  | Class p => if p c then Eps else Void
  | Cat a b =>
      if nullable a then Alt (Cat (deriv c a) b) (deriv c b)
      else Cat (deriv c a) b
  | Alt a b => Alt (deriv c a) (deriv c b)
  | Star a => Cat (deriv c a) (Star a)
  end.

(** [regex.test(s)] for a regex anchored at both ends. *)
Fixpoint test (r : re) (s : string) : bool :=
  match s with
  | EmptyString => nullable r
  | String c s' => test (deriv c r) s'
  end.

(** The strings a regular expression stands for. *)
Inductive Matches : re -> string -> Prop :=
| MEps : Matches Eps ""
| MClass (p : ascii -> bool) (c : ascii) :
    p c = true -> Matches (Class p) (String c "")
| MCat (a b : re) (s1 s2 : string) :
    Matches a s1 -> Matches b s2 -> Matches (Cat a b) (s1 ++ s2)
| MAltL (a b : re) (s : string) : Matches a s -> Matches (Alt a b) s
| MAltR (a b : re) (s : string) : Matches b s -> Matches (Alt a b) s
| MStarNil (a : re) : Matches (Star a) ""
| MStarApp (a : re) (s1 s2 : string) :
    Matches a s1 -> Matches (Star a) s2 -> Matches (Star a) (s1 ++ s2).

End Regex.

Module Settings.

Import Regex.

(** [[a-zA-Z0-9]] *)
Definition is_alnum (c : ascii) : bool :=
  let n := nat_of_ascii c in
  (((97 <=? n) && (n <=? 122)) || ((65 <=? n) && (n <=? 90))
   || ((48 <=? n) && (n <=? 57)))%nat.

(** [[a-zA-Z0-9-]] *)
Definition is_alnum_or_hyphen (c : ascii) : bool :=
  is_alnum c || Ascii.eqb c "-".

(** [[a-zA-Z0-9][a-zA-Z0-9-]{0,61}[a-zA-Z0-9]] *)
Definition label : re :=
  Cat (Class is_alnum)
      (Cat (upto 61 (Class is_alnum_or_hyphen)) (Class is_alnum)).

(** The regular expression of [isValidDomain]: a label, then any number of
    groups made of a dot and a label. *)
Definition domainRegex : re :=
  Cat label (Star (Cat (Class (Ascii.eqb ".")) label)).

Definition isValidDomain (domain : string) : bool :=
  test domainRegex domain
  && (3 <=? String.length domain)%nat
  && (String.length domain <=? 253)%nat.

(** A label as the regular expression wants it: two to sixty-three
    letters, digits or hyphens, the first and the last not a hyphen. *)
Definition label_ok (l : string) : bool :=
  let chars := list_ascii_of_string l in
  ((2 <=? length chars) && (length chars <=? 63))%nat
  && forallb is_alnum_or_hyphen chars
  && is_alnum (hd "-"%char chars)
  && is_alnum (last chars "-"%char).

End Settings.

(** Labels written one after the other, each after a dot. *)
Fixpoint dotted (labels : list string) : string :=
  match labels with
  | [] => ""
  | l :: ls => "." ++ l ++ dotted ls
  end.

(** * Properties *)

(** ** Strings *)

Lemma startsWith_dot (s : string) :
  startsWith "." s = true <-> exists r, s = String "." r.
Proof.
  destruct s as [|c r].
  - split; [discriminate | intros [r H]; discriminate].
  - change (startsWith "." (String c r)) with (Ascii.eqb "." c && true).
    rewrite andb_true_r, Ascii.eqb_eq. split.
    + intros <-. now exists r.
    + intros [r' H]. now injection H.
Qed.

Lemma includes_dot_iff (s : string) : includes "." s = true <-> has_dot s.
Proof.
  unfold has_dot. induction s as [|c r IH].
  - simpl. split; [discriminate | contradiction].
  - change (includes "." (String c r))
      with (startsWith "." (String c r) || includes "." r).
    rewrite orb_true_iff, IH, startsWith_dot. simpl. split.
    + intros [[r' H] | H]; [left; now injection H | now right].
    + intros [H | H]; [left; exists r; now subst c | now right].
Qed.

Lemma strip_one_www_startsWith (h : string) :
  (if startsWith "www." h then substring_from 4 h else h) = strip_one_www h.
Proof.
  destruct h as [|a h]; [reflexivity|].
  destruct a as [[] [] [] [] [] [] [] []]; try reflexivity.
  destruct h as [|a h]; [reflexivity|].
  destruct a as [[] [] [] [] [] [] [] []]; try reflexivity.
  destruct h as [|a h]; [reflexivity|].
  destruct a as [[] [] [] [] [] [] [] []]; try reflexivity.
  destruct h as [|a h]; [reflexivity|].
  destruct a as [[] [] [] [] [] [] [] []]; reflexivity.
Qed.

Lemma truthy_nonempty (u : string) : u <> "" -> truthy (Some u) = true.
Proof.
  intros H. unfold truthy. apply negb_true_iff, String.eqb_neq, H.
Qed.

Lemma valid_domain_dec (d : string) :
  negb (includes "." d) || (String.length d <? 3)%nat = false <-> valid_domain d.
Proof.
  unfold valid_domain. rewrite orb_false_iff, negb_false_iff, includes_dot_iff.
  rewrite Nat.ltb_ge. tauto.
Qed.

(** What [extractDomain] does with the hostname of a URL that parses. *)
Lemma extractDomain_parsed (URL_hostname : string -> option string)
    (u host : string) :
  u <> "" -> URL_hostname u = Some host ->
  extractDomain URL_hostname (Some u) =
    let d := strip_one_www (toLowerCase host) in
    if negb (includes "." d) || (String.length d <? 3)%nat then None else Some d.
Proof.
  intros Hu Hp. unfold extractDomain.
  rewrite (truthy_nonempty u Hu), Hp. cbv zeta.
  rewrite strip_one_www_startsWith. reflexivity.
Qed.

(** ** Domain Extractor *)

(** C7: the Domain Extractor is a function of the URL alone; an absent,
    empty or unparseable URL gives no domain; otherwise the result is the
    hostname in lower case with one leading "www." stripped, refused when
    it holds no "." or fewer than three characters; the hostname
    www.Example.com gives example.com. *)
Theorem extractDomain_normalizes (URL_hostname : string -> option string) :
  extractDomain URL_hostname None = None
  /\ extractDomain URL_hostname (Some "") = None
  /\ (forall u, URL_hostname u = None ->
        extractDomain URL_hostname (Some u) = None)
  /\ (forall u host, u <> "" -> URL_hostname u = Some host ->
        (valid_domain (strip_one_www (toLowerCase host)) ->
         extractDomain URL_hostname (Some u)
           = Some (strip_one_www (toLowerCase host)))
        /\ (~ valid_domain (strip_one_www (toLowerCase host)) ->
            extractDomain URL_hostname (Some u) = None))
  /\ (forall u, u <> "" -> URL_hostname u = Some "www.Example.com" ->
        extractDomain URL_hostname (Some u) = Some "example.com").
Proof.
  split; [reflexivity|]. split; [reflexivity|]. split; [|split].
  - intros u Hp. unfold extractDomain. rewrite Hp.
    destruct (negb (truthy (Some u))); reflexivity.
  - intros u host Hu Hp. rewrite (extractDomain_parsed _ u host Hu Hp).
    cbv zeta.
    destruct (negb (includes "." (strip_one_www (toLowerCase host)))
              || (String.length (strip_one_www (toLowerCase host)) <? 3)%nat)
      eqn:E.
    + split; [|reflexivity]. intros V. apply valid_domain_dec in V. congruence.
    + split; [reflexivity|]. intros V. exfalso. apply V.
      now apply valid_domain_dec.
  - intros u Hu Hp. rewrite (extractDomain_parsed _ u _ Hu Hp). reflexivity.
Qed.

Lemma extractDomain_normalizes_witness :
  extractDomain https_hostname (Some "https://www.Example.com/") = Some "example.com"
  /\ extractDomain https_hostname (Some "about:blank") = None
  /\ extractDomain (fun _ => Some "www.Example.com") (Some "foo://www.Example.com")
     = Some "example.com".
Proof.
  split; [|split].
  - destruct (extractDomain_normalizes https_hostname) as (_ & _ & _ & H & _).
    destruct (H "https://www.Example.com/" "www.example.com") as [H1 _];
      [discriminate | reflexivity |].
    apply H1. unfold valid_domain, has_dot. simpl. split; [|lia].
    do 7 right. left. reflexivity.
  - destruct (extractDomain_normalizes https_hostname) as (_ & _ & H & _).
    apply H. reflexivity.
  - destruct (extractDomain_normalizes (fun _ => Some "www.Example.com"))
      as (_ & _ & _ & _ & H).
    apply H; [discriminate | reflexivity].
Defined.

(** C8, as the code has it: for a hostname D that does not itself begin
    with "www." (in any letter case), the Domain Extractor gives the same
    result for the hostname D and for the hostname "www." followed by D. *)
Theorem extractDomain_www_same (URL_hostname : string -> option string)
    (u1 u2 D : string) :
  u1 <> "" -> u2 <> "" ->
  URL_hostname u1 = Some D ->
  URL_hostname u2 = Some ("www." ++ D) ->
  startsWith "www." (toLowerCase D) = false ->
  extractDomain URL_hostname (Some u2) = extractDomain URL_hostname (Some u1).
Proof.
  intros H1 H2 P1 P2 Hw.
  rewrite (extractDomain_parsed _ u1 D H1 P1).
  rewrite (extractDomain_parsed _ u2 _ H2 P2).
  change (toLowerCase ("www." ++ D)) with ("www." ++ toLowerCase D).
  change (strip_one_www ("www." ++ toLowerCase D)) with (toLowerCase D).
  rewrite <- (strip_one_www_startsWith (toLowerCase D)), Hw. reflexivity.
Qed.

Lemma extractDomain_www_same_witness :
  extractDomain https_hostname (Some "https://www.example.com/")
  = extractDomain https_hostname (Some "https://example.com/").
Proof.
  apply (extractDomain_www_same https_hostname _ _ "example.com");
    [discriminate | discriminate | reflexivity | reflexivity | reflexivity].
Defined.

(** C8 as stated fails for a hostname that begins with "www." itself:
    only one occurrence is stripped. *)
Lemma extractDomain_www_counterexample :
  https_hostname "https://www.a.com/" = Some "www.a.com"
  /\ https_hostname "https://www.www.a.com/" = Some ("www." ++ "www.a.com")
  /\ extractDomain https_hostname (Some "https://www.a.com/") = Some "a.com"
  /\ extractDomain https_hostname (Some "https://www.www.a.com/")
     = Some "www.a.com".
Proof. repeat split. Qed.

(** ** Initialization *)

(** C10: when the install listener loads the stored settings, monitoring
    ends disabled exactly when the stored [extensionEnabled] is the boolean
    false (and the read succeeded); a value never stored, or any other
    value, leaves it enabled, as the script is before the settings are
    loaded.  This holds of the callback for any items it is given, of the
    listener for the storage area it reads, and of a script loaded afresh
    over any storage area. *)
Theorem onInstalled_enabled_unless_false (env : Env) (result : Storage)
    (w : World) :
  (isExtensionEnabled (onInstalled result w) = false
   <-> extensionEnabled result = JsBool false)
  /\ (extensionEnabled result = JsUndefined ->
      isExtensionEnabled (onInstalled result w) = true)
  /\ isExtensionEnabled initial_world = true
  /\ (storageFault env <> GetRejects ->
      (isExtensionEnabled (installed env w) = false
       <-> extensionEnabled (storage w) = JsBool false))
  /\ (isExtensionEnabled (installed env (restarted_world result)) = false
      <-> storageFault env <> GetRejects
          /\ extensionEnabled result = JsBool false).
Proof.
  assert (Hcb : forall (r : Storage) (w0 : World),
            isExtensionEnabled (onInstalled r w0) = false
            <-> extensionEnabled r = JsBool false).
  { intros r w0. unfold onInstalled. simpl.
    destruct (extensionEnabled r) as [| |[]| |]; simpl;
      split; intros H; try reflexivity; discriminate. }
  split; [apply Hcb|]. split.
  { intros H. destruct (isExtensionEnabled (onInstalled result w)) eqn:E;
      [reflexivity|]. apply Hcb in E. congruence. }
  split; [reflexivity|]. split.
  - intros Hf. unfold installed, storage_get.
    destruct (storageFault env); try (now contradiction Hf); apply Hcb.
  - unfold installed, storage_get.
    destruct (storageFault env) eqn:Hf.
    + rewrite Hcb. cbn [storage restarted_world set_storage]. split.
      * intros H. split; [discriminate | exact H].
      * intros [_ H]. exact H.
    + cbn. split; [discriminate|]. intros [H _]. now contradiction H.
    + rewrite Hcb. cbn [storage restarted_world set_storage]. split.
      * intros H. split; [discriminate | exact H].
      * intros [_ H]. exact H.
Qed.

Lemma onInstalled_enabled_unless_false_witness :
  isExtensionEnabled
    (installed sample_env (restarted_world (mkStorage JsUndefined None None)))
  = true
  /\ isExtensionEnabled
       (installed sample_env
          (restarted_world (mkStorage (JsBool false) None None)))
     = false
  /\ isExtensionEnabled
       (installed sample_env
          (fst (onMessage https_hostname sample_env ToggleExtension
                  initial_world)))
     = false.
Proof.
  split; [|split].
  - destruct (onInstalled_enabled_unless_false
                sample_env (mkStorage JsUndefined None None) initial_world)
      as (_ & _ & _ & _ & H).
    apply Bool.not_false_is_true. intros E.
    apply H in E. destruct E as [_ E]. discriminate E.
  - destruct (onInstalled_enabled_unless_false
                sample_env (mkStorage (JsBool false) None None) initial_world)
      as (_ & _ & _ & _ & H).
    apply H. split; [discriminate | reflexivity].
  - destruct (onInstalled_enabled_unless_false
                sample_env (mkStorage JsUndefined None None)
                (fst (onMessage https_hostname sample_env ToggleExtension
                        initial_world)))
      as (_ & _ & _ & H & _).
    apply H; [discriminate | reflexivity].
Defined.

(** ** Recent contacts *)


Lemma filter_other_domain_absent (d : string) (l : list RecentChat) :
  ~ In d (map chat_domain l) -> filter (other_domain d) l = l.
Proof.
  induction l as [|x l IH]; intros H; [reflexivity|].
  simpl in *. unfold other_domain at 1.
  destruct (String.eqb_spec (chat_domain x) d) as [E|E].
  - exfalso. apply H. now left.
  - simpl. f_equal. apply IH. intros HI. apply H. now right.
Qed.

Lemma filter_other_domain_not_in (d : string) (l : list RecentChat) :
  ~ In d (map chat_domain (filter (other_domain d) l)).
Proof.
  intros H. apply in_map_iff in H. destruct H as (x & Hx & Hin).
  apply filter_In in Hin. destruct Hin as [_ Hf].
  unfold other_domain in Hf. apply negb_true_iff, String.eqb_neq in Hf.
  contradiction.
Qed.

Lemma in_map_filter (d : string) (p : RecentChat -> bool) (l : list RecentChat) :
  In d (map chat_domain (filter p l)) -> In d (map chat_domain l).
Proof.
  intros H. apply in_map_iff in H. destruct H as (x & Hx & Hin).
  apply filter_In in Hin. apply in_map_iff. exists x. tauto.
Qed.

Lemma NoDup_domains_filter (p : RecentChat -> bool) (l : list RecentChat) :
  NoDup (map chat_domain l) -> NoDup (map chat_domain (filter p l)).
Proof.
  induction l as [|x l IH]; intros H; [constructor|].
  simpl in *. inversion H as [|? ? Hn Hd]; subst.
  destruct (p x); simpl; [constructor|]; auto.
  intros HI. apply Hn. eapply in_map_filter, HI.
Qed.

Lemma in_map_firstn (n : nat) (d : string) (l : list RecentChat) :
  In d (map chat_domain (firstn n l)) -> In d (map chat_domain l).
Proof.
  intros H. apply in_map_iff in H. destruct H as (x & Hx & Hin).
  apply in_map_iff. exists x. split; [assumption|].
  rewrite <- (firstn_skipn n l). apply in_or_app. now left.
Qed.

Lemma NoDup_domains_firstn (n : nat) (l : list RecentChat) :
  NoDup (map chat_domain l) -> NoDup (map chat_domain (firstn n l)).
Proof.
  revert n. induction l as [|x l IH]; intros [|n] H; simpl; try constructor.
  - simpl in H. inversion H as [|? ? Hn Hd]; subst.
    intros HI. apply Hn. eapply in_map_firstn, HI.
  - simpl in H. inversion H; subst. now apply IH.
Qed.

(** Cutting before or after the removal of a domain gives the same
    first [n] entries when no domain occurs twice. *)
Lemma firstn_filter_firstn (d : string) (l : list RecentChat) (n : nat) :
  NoDup (map chat_domain l) ->
  firstn n (filter (other_domain d) (firstn (S n) l))
  = firstn n (filter (other_domain d) l).
Proof.
  revert n. induction l as [|x l IH]; intros n H; [reflexivity|].
  simpl in H. inversion H as [|? ? Hn Hd]; subst.
  change (firstn (S n) (x :: l)) with (x :: firstn n l).
  cbn [filter]. destruct (other_domain d x) eqn:E.
  - destruct n as [|n]; [reflexivity|].
    cbn [firstn]. f_equal. apply IH, Hd.
  - unfold other_domain in E. apply negb_false_iff, String.eqb_eq in E.
    subst d. rewrite (filter_other_domain_absent _ l Hn).
    rewrite filter_other_domain_absent.
    + rewrite firstn_firstn. f_equal. lia.
    + intros HI. apply Hn. eapply in_map_firstn, HI.
Qed.

Lemma latest_per_domain_NoDup (h : list RecentChat) :
  NoDup (map chat_domain (latest_per_domain h)).
Proof.
  induction h as [|c h IH]; simpl; constructor.
  - apply (filter_other_domain_not_in (chat_domain c)).
  - apply NoDup_domains_filter, IH.
Qed.

Lemma latest_per_domain_id (l : list RecentChat) :
  NoDup (map chat_domain l) -> latest_per_domain l = l.
Proof.
  induction l as [|c l IH]; intros H; [reflexivity|].
  simpl in *. inversion H as [|? ? Hn Hd]; subst.
  rewrite (IH Hd). f_equal.
  apply (filter_other_domain_absent (chat_domain c)), Hn.
Qed.

Lemma filter_other_domain_shorter (d : string) (l : list RecentChat) :
  In d (map chat_domain l) ->
  length (filter (other_domain d) l) < length l.
Proof.
  induction l as [|x l IH]; intros H; [contradiction|].
  cbn [filter]. destruct (other_domain d x) eqn:E.
  - simpl. apply -> Nat.succ_lt_mono. apply IH.
    destruct H as [H|H]; [|assumption].
    unfold other_domain in E. apply negb_true_iff, String.eqb_neq in E.
    contradiction.
  - simpl. pose proof (filter_length_le (other_domain d) l). lia.
Qed.

Section RecentChats.

Variable URL_hostname : string -> option string.

(** The stored list after one request that the storage area accepts. *)
Lemma stored_chats_after_add (c : AddCall) (w : World) :
  storageFault (call_env c) = NoFault ->
  stored_chats (fst (onMessage URL_hostname (call_env c) (request_of c) w))
  = firstn 10 (entry_of c
               :: filter (other_domain (call_domain c)) (stored_chats w)).
Proof.
  intros Hf. unfold request_of, onMessage, addToRecentChats,
    storage_get, storage_set. rewrite Hf. reflexivity.
Qed.

Lemma after_adds_app (l1 l2 : list AddCall) (w : World) :
  after_adds URL_hostname (l1 ++ l2) w
  = after_adds URL_hostname l2 (after_adds URL_hostname l1 w).
Proof.
  revert w. induction l1 as [|c l1 IH]; intros w; [reflexivity|].
  simpl. apply IH.
Qed.

Lemma after_adds_most_recent_first (calls : list AddCall) (w : World) :
  Forall (fun k => storageFault (call_env k) = NoFault) calls ->
  NoDup (map chat_domain (stored_chats w)) ->
  length (stored_chats w) <= 10 ->
  stored_chats (after_adds URL_hostname calls w)
  = most_recent_first (rev (map entry_of calls) ++ stored_chats w).
Proof.
  intros Hf Hn Hl. induction calls as [|c calls IH] using rev_ind.
  - simpl. unfold most_recent_first.
    rewrite (latest_per_domain_id _ Hn). symmetry. now apply firstn_all2.
  - apply Forall_app in Hf. destruct Hf as [Hf Hc].
    inversion Hc as [|? ? Hc1 _]; subst.
    rewrite after_adds_app. cbn [after_adds].
    rewrite (stored_chats_after_add c _ Hc1), (IH Hf).
    rewrite map_app, rev_app_distr. cbn [map rev app].
    unfold most_recent_first. cbn [latest_per_domain].
    rewrite !firstn_cons. f_equal.
    apply (firstn_filter_firstn (call_domain c) _ 9).
    apply latest_per_domain_NoDup.
Qed.

End RecentChats.

(** C5: after any sequence of addToRecentChats requests the stored list
    holds at most ten entries, one per domain, the most recent first (it is
    the first ten of the newest entries per domain of the history); the last
    request's entry is at the front, a request for a domain already listed
    replaces that domain's entry, and a request for a new domain on a full
    list drops the oldest entry. *)
Theorem recentChats_most_recent_first (URL_hostname : string -> option string)
    (calls : list AddCall) (c : AddCall) (w : World) :
  Forall (fun k => storageFault (call_env k) = NoFault) (calls ++ [c]) ->
  NoDup (map chat_domain (stored_chats w)) ->
  length (stored_chats w) <= 10 ->
  let before := stored_chats (after_adds URL_hostname calls w) in
  let after := stored_chats (after_adds URL_hostname (calls ++ [c]) w) in
  length after <= 10
  /\ NoDup (map chat_domain after)
  /\ after = most_recent_first
               (rev (map entry_of (calls ++ [c])) ++ stored_chats w)
  /\ hd_error after = Some (entry_of c)
  /\ (In (call_domain c) (map chat_domain before) ->
      after = entry_of c :: filter (other_domain (call_domain c)) before)
  /\ (~ In (call_domain c) (map chat_domain before) ->
      length before = 10 ->
      after = entry_of c :: removelast before).
Proof.
  intros Hf Hn Hl before after.
  assert (Hafter : after = most_recent_first
             (rev (map entry_of (calls ++ [c])) ++ stored_chats w))
    by (apply after_adds_most_recent_first; assumption).
  assert (Hbefore : before = most_recent_first
             (rev (map entry_of calls) ++ stored_chats w)).
  { apply after_adds_most_recent_first; try assumption.
    apply Forall_app in Hf. tauto. }
  assert (Hstep : after = firstn 10
             (entry_of c :: filter (other_domain (call_domain c)) before)).
  { unfold after, before. rewrite after_adds_app. cbn [after_adds].
    apply stored_chats_after_add.
    apply Forall_app in Hf. destruct Hf as [_ Hc]. now inversion Hc. }
  assert (Hblen : length before <= 10).
  { rewrite Hbefore. apply firstn_le_length. }
  split; [|split; [|split; [|split; [|split]]]].
  - rewrite Hafter. apply firstn_le_length.
  - rewrite Hafter. apply NoDup_domains_firstn, latest_per_domain_NoDup.
  - exact Hafter.
  - rewrite Hstep. reflexivity.
  - intros Hin. rewrite Hstep. apply firstn_all2. simpl.
    pose proof (filter_other_domain_shorter _ _ Hin). lia.
  - intros Hnin Hfull. rewrite Hstep.
    rewrite (filter_other_domain_absent _ _ Hnin).
    rewrite removelast_firstn_len, Hfull. reflexivity.
Qed.

Lemma recentChats_most_recent_first_witness :
  length (stored_chats
            (after_adds https_hostname ([call_first] ++ [call_second])
                        initial_world)) <= 10
  /\ stored_chats
       (after_adds https_hostname ([call_first] ++ [call_second]) initial_world)
     = [entry_of call_second].
Proof.
  destruct (recentChats_most_recent_first
              https_hostname [call_first] call_second initial_world)
    as (H1 & _ & _ & _ & H5 & _).
  - repeat constructor.
  - simpl. constructor.
  - simpl. lia.
  - split; [exact H1|]. apply H5. simpl. left. reflexivity.
Defined.

(** ** Tab Monitor *)

(** The early return: a reply that resolves to nothing leaves every
    variable, and the badge, as they were. *)
Lemma settle_not_found (tab : Tab) (domain : string) (show : bool)
    (reply : FetchResult) (w : World) :
  resolveNameAddress reply = None ->
  handleTabUpdate_settle tab domain show reply w = w.
Proof.
  intros H. unfold handleTabUpdate_settle. rewrite H. reflexivity.
Qed.

Lemma clearBadge_badgeText (tab : Tab) (i : Z) (w : World) :
  tab_id tab = Some i -> i <> 0%Z ->
  badgeText i (effects (clearBadge tab w)) = Some "".
Proof.
  intros Hi Hz. unfold clearBadge. rewrite Hi. unfold truthy_id.
  apply Z.eqb_neq in Hz. rewrite Hz. simpl. now rewrite Z.eqb_refl.
Qed.

(** The owner variables after a reply that carries an owner identifier. *)
Lemma settle_owner (tab : Tab) (domain : string) (show : bool)
    (reply : FetchResult) (nameData : NameData) (owner : string) (w : World) :
  resolveNameAddress reply = Some nameData ->
  claimedBy nameData = Some owner ->
  let w' := handleTabUpdate_settle tab domain show reply w in
  let amount := extractPriceFromName nameData in
  ethAddress w' = address (parseCAIP10 owner)
  /\ price w' = match amount with Some a => amount_price a | None => None end
  /\ decimals w' = match amount with Some a => amount_decimals a | None => None end
  /\ currency w' = match amount with Some a => amount_currency a | None => None end
  /\ currentDomain w' = currentDomain w
  /\ isExtensionEnabled w' = isExtensionEnabled w
  /\ cachedBlacklistedDomains w' = cachedBlacklistedDomains w
  /\ storage w' = storage w.
Proof.
  intros Hr Hc. unfold handleTabUpdate_settle. rewrite Hr, Hc.
  cbv zeta. unfold clearBadge.
  destruct (tab_id tab) as [i|]; [|repeat split].
  destruct (truthy _ && truthy_id (Some i)).
  - destruct show; repeat split.
  - destruct (truthy_id (Some i)); repeat split.
Qed.

(** C3, as the code has it: the completion of a resolution is not tagged
    with the domain it was issued for.  When its reply carries an owner
    identifier, the address and price fields of that reply are assigned to
    the owner variables whatever domain is tracked at that moment, and the
    tracked domain is left as it is. *)
Theorem stale_resolution_is_assigned (tab : Tab) (issued_for : string)
    (show : bool) (reply : FetchResult) (nameData : NameData) (owner : string)
    (w : World) :
  resolveNameAddress reply = Some nameData ->
  claimedBy nameData = Some owner ->
  currentDomain w <> Some issued_for ->
  let w' := handleTabUpdate_settle tab issued_for show reply w in
  currentDomain w' = currentDomain w
  /\ currentDomain w' <> Some issued_for
  /\ ethAddress w' = address (parseCAIP10 owner)
  /\ price w' = match extractPriceFromName nameData with
                | Some a => amount_price a | None => None end.
Proof.
  intros Hr Hc Hd w'.
  destruct (settle_owner tab issued_for show reply nameData owner w Hr Hc)
    as (He & Hp & _ & _ & Hcur & _).
  fold w' in He, Hp, Hcur. rewrite Hcur. repeat split; assumption.
Qed.

Lemma stale_resolution_is_assigned_witness :
  currentDomain stale_reply_arrived = Some "second.io"
  /\ ethAddress stale_reply_arrived = Some "0xabc".
Proof.
  destruct (stale_resolution_is_assigned
              tab_example "example.com" true (sample_registry "example.com")
              (mkNameData (Some "eip155:1:0xabc") None) "eip155:1:0xabc"
              on_second)
    as (H1 & _ & H3 & _).
  - reflexivity.
  - reflexivity.
  - discriminate.
  - split; [exact H1 | exact H3].
Defined.

(** C3 as stated fails: the reply for example.com, issued before the tab
    moved to second.io, replaces the owner resolved for second.io. *)
Lemma stale_resolution_counterexample :
  currentDomain on_second = Some "second.io"
  /\ ethAddress on_second = Some "0xdef"
  /\ currentDomain stale_reply_arrived = Some "second.io"
  /\ ethAddress stale_reply_arrived = Some "0xabc".
Proof. repeat split. Qed.

(** C2 at a failing input: the tab shows example.com with its owner
    resolved and moves to other.org, which the registry does not know.  The
    handler returns early: other.org is tracked with the owner of
    example.com still in place and the badge still set.  The sibling path,
    an answer without owner identifier (the catch), clears both. *)
Theorem not_found_keeps_stale_owner :
  ethAddress on_example = Some "0xabc"
  /\ resolveNameAddress (sample_registry "other.org") = None
  /\ currentDomain (handleTabUpdate https_hostname sample_env tab_other on_example)
     = Some "other.org"
  /\ ethAddress (handleTabUpdate https_hostname sample_env tab_other on_example)
     = Some "0xabc"
  /\ badgeText 7 (effects (handleTabUpdate https_hostname sample_env tab_other
                                           on_example))
     = Some "●"
  /\ ethAddress (handleTabUpdate https_hostname sample_env tab_broken on_example)
     = None
  /\ badgeText 7 (effects (handleTabUpdate https_hostname sample_env tab_broken
                                           on_example))
     = Some "".
Proof. repeat split. Qed.

(** ** Owner identifiers *)

Lemma split_no_separator (sep : ascii) (s : string) :
  ~ In sep (list_ascii_of_string s) -> split sep s = [s].
Proof.
  induction s as [|c r IH]; intros H; [reflexivity|].
  simpl in H. cbn [split].
  destruct (Ascii.eqb_spec c sep) as [E|E].
  - exfalso. apply H. now left.
  - rewrite IH; [reflexivity|]. intros HI. apply H. now right.
Qed.

Lemma split_at_separator (sep : ascii) (a b : string) :
  ~ In sep (list_ascii_of_string a) ->
  split sep (a ++ String sep b) = a :: split sep b.
Proof.
  induction a as [|c r IH]; intros H.
  - cbn [append split]. now rewrite Ascii.eqb_refl.
  - simpl in H. cbn [append split].
    destruct (Ascii.eqb_spec c sep) as [E|E].
    + exfalso. apply H. now left.
    + rewrite IH; [reflexivity|]. intros HI. apply H. now right.
Qed.

Lemma parseCAIP10_two_segments (ns chain : string) :
  ~ In ":"%char (list_ascii_of_string ns) ->
  ~ In ":"%char (list_ascii_of_string chain) ->
  parseCAIP10 (ns ++ ":" ++ chain) = mkCAIP10 (Some ns) (Some chain) None.
Proof.
  intros Hn Hc. unfold parseCAIP10.
  change (ns ++ ":" ++ chain) with (ns ++ String ":" chain).
  rewrite (split_at_separator _ _ _ Hn), (split_no_separator _ _ Hc).
  reflexivity.
Qed.

(** C6, as the code has it: when the reply carries an owner identifier of
    two segments, namespace:chainId, no address is extracted, the stored
    address becomes absent, the badge of the tab is cleared when the tab has
    an id, no popup is scheduled, and the price fields are absent when the
    name has no listing. *)
Theorem two_segment_owner_has_no_address (tab : Tab) (domain : string)
    (show : bool) (reply : FetchResult) (nameData : NameData)
    (ns chain : string) (w : World) :
  ~ In ":"%char (list_ascii_of_string ns) ->
  ~ In ":"%char (list_ascii_of_string chain) ->
  resolveNameAddress reply = Some nameData ->
  claimedBy nameData = Some (ns ++ ":" ++ chain) ->
  let w' := handleTabUpdate_settle tab domain show reply w in
  address (parseCAIP10 (ns ++ ":" ++ chain)) = None
  /\ ethAddress w' = None
  /\ effects w' = effects (clearBadge tab w)
  /\ (forall i, tab_id tab = Some i -> i <> 0%Z ->
        badgeText i (effects w') = Some "")
  /\ (extractPriceFromName nameData = None ->
        price w' = None /\ decimals w' = None /\ currency w' = None).
Proof.
  intros Hn Hc Hr Ho w'.
  pose proof (parseCAIP10_two_segments ns chain Hn Hc) as Hp.
  destruct (settle_owner tab domain show reply nameData _ w Hr Ho)
    as (He & Hpr & Hde & Hcu & _).
  fold w' in He, Hpr, Hde, Hcu. rewrite Hp in He. cbn [address] in He.
  assert (Heff : effects w' = effects (clearBadge tab w)).
  { unfold w', handleTabUpdate_settle. rewrite Hr, Ho. cbv zeta.
    rewrite Hp. cbn [address]. unfold clearBadge.
    destruct (tab_id tab) as [i|]; [|reflexivity].
    cbn [ethAddress set_owner truthy andb].
    destruct (truthy_id (Some i)); reflexivity. }
  split; [now rewrite Hp|]. split; [exact He|]. split; [exact Heff|]. split.
  - intros i Hi Hz. rewrite Heff. now apply clearBadge_badgeText.
  - intros Hnone. rewrite Hnone in Hpr, Hde, Hcu. now repeat split.
Qed.

Lemma two_segment_owner_has_no_address_witness :
  ethAddress (handleTabUpdate_settle tab_shop "shop.net" true
                (found_reply "eip155:1" None) initial_world) = None
  /\ badgeText 7 (effects (handleTabUpdate_settle tab_shop "shop.net" true
                             (found_reply "eip155:1" None) initial_world))
     = Some ""
  /\ price (handleTabUpdate_settle tab_shop "shop.net" true
              (found_reply "eip155:1" None) initial_world) = None.
Proof.
  destruct (two_segment_owner_has_no_address
              tab_shop "shop.net" true (found_reply "eip155:1" None)
              (mkNameData (Some "eip155:1") None) "eip155" "1" initial_world)
    as (_ & H2 & _ & H4 & H5).
  - simpl. intros [H|[H|[H|[H|[H|[H|H]]]]]]; try discriminate H; exact H.
  - simpl. intros [H|H]; try discriminate H; exact H.
  - reflexivity.
  - reflexivity.
  - split; [exact H2|]. split.
    + apply (H4 7%Z); [reflexivity | discriminate].
    + apply H5. reflexivity.
Defined.

(** C6 as stated fails on the price fields: shop.net is claimed by the
    two-segment identifier eip155:1 and is listed; after the tab update no
    address is stored and the badge is cleared, but the price fields hold
    the listing. *)
Lemma two_segment_owner_counterexample :
  resolveNameAddress (sample_registry "shop.net")
    = Some (mkNameData (Some "eip155:1") one_listing)
  /\ ethAddress (handleTabUpdate https_hostname sample_env tab_shop initial_world)
     = None
  /\ badgeText 7 (effects (handleTabUpdate https_hostname sample_env tab_shop
                                           initial_world)) = Some ""
  /\ price (handleTabUpdate https_hostname sample_env tab_shop initial_world)
     = Some "2500000"
  /\ decimals (handleTabUpdate https_hostname sample_env tab_shop initial_world)
     = Some 6%Z
  /\ currency (handleTabUpdate https_hostname sample_env tab_shop initial_world)
     = Some "USDC".
Proof. repeat split. Qed.

(** ** Message Router *)

Ltac break_match :=
  match goal with
  | |- context [match ?x with _ => _ end] => destruct x eqn:?
  end.

Lemma settle_keeps_lists (tab : Tab) (domain : string) (show : bool)
    (reply : FetchResult) (w : World) :
  let w' := handleTabUpdate_settle tab domain show reply w in
  storage w' = storage w
  /\ cachedBlacklistedDomains w' = cachedBlacklistedDomains w
  /\ isExtensionEnabled w' = isExtensionEnabled w
  /\ exists newer, effects w' = (newer ++ effects w)%list.
Proof.
  unfold handleTabUpdate_settle, clearBadge.
  repeat break_match; cbn;
    repeat split;
    first [ now exists [] | now eexists [_] | now eexists [_; _]
          | now eexists [_; _; _] ].
Qed.

Lemma handleTabUpdate_keeps_lists (URL_hostname : string -> option string)
    (env : Env) (tab : Tab) (w : World) :
  let w' := handleTabUpdate URL_hostname env tab w in
  storage w' = storage w
  /\ cachedBlacklistedDomains w' = cachedBlacklistedDomains w
  /\ isExtensionEnabled w' = isExtensionEnabled w.
Proof.
  unfold handleTabUpdate, handleTabUpdate_begin, handleTabUpdate_request.
  destruct (negb (isExtensionEnabled w)); [now repeat split|].
  destruct (strict_eq _ _); [now repeat split|].
  assert (Helse : forall w0 : World,
    let w1 := if truthy_id (tab_id tab)
              then clear_owner (clearBadge tab w0) else w0 in
    storage w1 = storage w0
    /\ cachedBlacklistedDomains w1 = cachedBlacklistedDomains w0
    /\ isExtensionEnabled w1 = isExtensionEnabled w0).
  { intros w0. unfold clearBadge. repeat break_match; now repeat split. }
  destruct (extractDomain URL_hostname (tab_url tab)) as [d|];
    [|apply (Helse (set_currentDomain None w))].
  destruct (truthy (Some d) && _);
    [|apply (Helse (set_currentDomain (Some d) w))].
  destruct (settle_keeps_lists tab d
              (shouldAutoOpenPopup env d (set_currentDomain (Some d) w))
              (registry env d)
              (emit (Fetch d) (set_currentDomain (Some d) w)))
    as (H1 & H2 & H3 & _).
  now repeat split.
Qed.

Lemma strict_eq_false (a b : option string) :
  a <> b -> strict_eq a b = false.
Proof.
  destruct a as [x|], b as [y|]; simpl; intros H; try reflexivity.
  - apply String.eqb_neq. intros E. apply H. now subst.
  - now contradiction H.
Qed.

Lemma extractDomain_truthy (URL_hostname : string -> option string)
    (url : option string) (d : string) :
  extractDomain URL_hostname url = Some d -> truthy (Some d) = true.
Proof.
  unfold extractDomain. destruct (negb (truthy url)); [discriminate|].
  destruct url as [u|]; [|discriminate].
  destruct (URL_hostname u) as [host|]; [|discriminate].
  cbv zeta.
  set (h := if startsWith "www." (toLowerCase host)
            then substring_from 4 (toLowerCase host) else toLowerCase host).
  destruct (negb (includes "." h) || (String.length h <? 3)%nat) eqn:E;
    [discriminate|].
  intros H. injection H as <-.
  apply orb_false_iff in E. destruct E as [_ E]. apply Nat.ltb_ge in E.
  apply truthy_nonempty. intros Hz. rewrite Hz in E. simpl in E. lia.
Qed.

Lemma filter_pushed (d : string) (l : list string) :
  array_includes d l = false ->
  filter (fun x => negb (x =? d)) (l ++ [d]) = l.
Proof.
  unfold array_includes. induction l as [|x l IH]; intros H.
  - simpl. now rewrite String.eqb_refl.
  - cbn [existsb] in H. apply orb_false_iff in H. destruct H as [Hx Hl].
    cbn [app filter]. rewrite Hx. cbn [negb]. f_equal. now apply IH.
Qed.

Lemma stored_blacklist_after_add (URL_hostname : string -> option string)
    (env : Env) (d : string) (w : World) :
  storageFault env = NoFault ->
  array_includes d (stored_blacklist w) = false ->
  stored_blacklist (fst (onMessage URL_hostname env (AddToBlacklist d) w))
  = (stored_blacklist w ++ [d])%list.
Proof.
  intros Hf Hn. unfold onMessage, addToBlacklist, storage_get, storage_set.
  rewrite Hf. unfold stored_blacklist in Hn. rewrite Hn. cbn [negb].
  unfold clearBadge. repeat break_match; reflexivity.
Qed.

Lemma stored_blacklist_after_remove (URL_hostname : string -> option string)
    (env : Env) (d : string) (w : World) :
  storageFault env = NoFault ->
  let w' := fst (onMessage URL_hostname env (RemoveFromBlacklist d) w) in
  stored_blacklist w' = filter (fun x => negb (x =? d)) (stored_blacklist w)
  /\ cachedBlacklistedDomains w'
     = filter (fun x => negb (x =? d)) (stored_blacklist w).
Proof.
  intros Hf. unfold onMessage, removeFromBlacklist, storage_get, storage_set.
  rewrite Hf. destruct (activeTab env) as [tab0|]; [|now split].
  destruct (strict_eq _ _); [|now split].
  cbn [detach fst]. unfold stored_blacklist.
  match goal with
  | |- context [handleTabUpdate _ _ _ ?w0] =>
      destruct (handleTabUpdate_keeps_lists URL_hostname env tab0 w0)
        as (H1 & H2 & _)
  end.
  rewrite H1, H2. now split.
Qed.

(** C4, as the code has it: when d is not blacklisted, addToBlacklist(d)
    followed by removeFromBlacklist(d) gives back the stored blacklist (and
    the cached copy equals it); a tab update for d that comes next issues a
    resolution request when monitoring is enabled and d is not the tracked
    domain. *)
Theorem blacklist_add_remove_round_trip
    (URL_hostname : string -> option string) (env1 env2 env3 : Env)
    (d : string) (tab : Tab) (w : World) :
  storageFault env1 = NoFault ->
  storageFault env2 = NoFault ->
  array_includes d (stored_blacklist w) = false ->
  let w1 := fst (onMessage URL_hostname env1 (AddToBlacklist d) w) in
  let w2 := fst (onMessage URL_hostname env2 (RemoveFromBlacklist d) w1) in
  stored_blacklist w2 = stored_blacklist w
  /\ cachedBlacklistedDomains w2 = stored_blacklist w
  /\ (isExtensionEnabled w2 = true ->
      currentDomain w2 <> Some d ->
      extractDomain URL_hostname (tab_url tab) = Some d ->
      exists newer,
        effects (handleTabUpdate URL_hostname env3 tab w2)
        = (newer ++ Fetch d :: effects w2)%list).
Proof.
  intros Hf1 Hf2 Hn w1 w2.
  destruct (stored_blacklist_after_remove URL_hostname env2 d w1 Hf2)
    as [Hs Hc].
  fold w2 in Hs, Hc.
  unfold w1 in Hs, Hc.
  rewrite (stored_blacklist_after_add URL_hostname env1 d w Hf1 Hn) in Hs, Hc.
  rewrite (filter_pushed d _ Hn) in Hs, Hc.
  split; [exact Hs|]. split; [exact Hc|].
  intros He Hd Hx.
  unfold handleTabUpdate, handleTabUpdate_begin, handleTabUpdate_request.
  rewrite He. cbn [negb]. rewrite Hx.
  rewrite (strict_eq_false _ _ (not_eq_sym Hd)).
  rewrite (extractDomain_truthy _ _ _ Hx).
  cbn [cachedBlacklistedDomains set_currentDomain]. rewrite Hc, Hn.
  cbn [negb andb].
  match goal with
  | |- context [handleTabUpdate_settle ?t ?dd ?s ?r ?w0] =>
      destruct (settle_keeps_lists t dd s r w0) as (_ & _ & _ & newer & Hnew)
  end.
  exists newer. exact Hnew.
Qed.

Lemma blacklist_add_remove_round_trip_witness :
  stored_blacklist
    (fst (onMessage https_hostname elsewhere_env (RemoveFromBlacklist "example.com")
            (fst (onMessage https_hostname elsewhere_env
                    (AddToBlacklist "example.com") initial_world))))
  = stored_blacklist initial_world
  /\ In (Fetch "example.com")
        (effects
           (handleTabUpdate https_hostname sample_env tab_example
              (fst (onMessage https_hostname elsewhere_env
                      (RemoveFromBlacklist "example.com")
                      (fst (onMessage https_hostname elsewhere_env
                              (AddToBlacklist "example.com") initial_world)))))).
Proof.
  destruct (blacklist_add_remove_round_trip
              https_hostname elsewhere_env elsewhere_env sample_env
              "example.com" tab_example initial_world)
    as (H1 & _ & H3); try reflexivity.
  split; [exact H1|].
  destruct H3 as [newer Hn]; [reflexivity | discriminate | reflexivity |].
  rewrite Hn. apply in_or_app. right. left. reflexivity.
Defined.

(** C4 as stated fails twice.  When example.com is blacklisted already,
    adding it changes nothing and removing it ends its membership.  When
    example.com is the tracked domain, the round trip gives back the
    blacklist, but the next tab update for example.com is stopped by the
    domain-equality test: nothing is requested. *)
Lemma blacklist_round_trip_counterexample :
  array_includes "example.com" (stored_blacklist already_blacklisted) = true
  /\ array_includes "example.com"
       (stored_blacklist (round_trip already_blacklisted)) = false
  /\ currentDomain (round_trip on_example) = Some "example.com"
  /\ isExtensionEnabled (round_trip on_example) = true
  /\ stored_blacklist (round_trip on_example) = stored_blacklist on_example
  /\ effects (handleTabUpdate https_hostname sample_env tab_example
                (round_trip on_example))
     = effects (round_trip on_example).
Proof. repeat split. Qed.

(** C1, as the code has it: a tab update handled while monitoring is
    enabled, for a tab with an id whose domain differs from the tracked one
    and is absent or blacklisted, clears the resolved owner.  Toggling
    monitoring off does not: the reply is enabled: false, and a getStatus
    request that follows returns enabled: false, the tracked domain, and the
    address and price fields that were held before the toggle. *)
Theorem toggle_off_keeps_owner (URL_hostname : string -> option string)
    (env env' : Env) (w : World) :
  (isExtensionEnabled w = true ->
   snd (onMessage URL_hostname env ToggleExtension w) = Some (EnabledReply false)
   /\ snd (onMessage URL_hostname env' GetStatus
             (fst (onMessage URL_hostname env ToggleExtension w)))
      = Some (StatusReply false (currentDomain w) (ethAddress w) (price w)
                          (decimals w) (currency w)))
  /\ (forall tab : Tab,
        isExtensionEnabled w = true ->
        truthy_id (tab_id tab) = true ->
        extractDomain URL_hostname (tab_url tab) <> currentDomain w ->
        (extractDomain URL_hostname (tab_url tab) = None
         \/ exists d, extractDomain URL_hostname (tab_url tab) = Some d
                      /\ array_includes d (cachedBlacklistedDomains w) = true) ->
        let w' := handleTabUpdate URL_hostname env tab w in
        currentDomain w' = extractDomain URL_hostname (tab_url tab)
        /\ ethAddress w' = None /\ price w' = None
        /\ decimals w' = None /\ currency w' = None).
Proof.
  split.
  - intros He. unfold onMessage. rewrite He. cbn [negb set_enabled isExtensionEnabled].
    unfold storage_set, clearBadge.
    destruct (storageFault env), (activeTab env) as [tab0|];
      cbn [negb set_enabled isExtensionEnabled set_storage emit];
      try (destruct (tab_id tab0) as [i|]; [destruct (truthy_id (Some i))|]);
      split; reflexivity.
  - intros tab He Hid Hd Hcase w'. unfold w', handleTabUpdate, handleTabUpdate_begin.
    rewrite He, Hid. cbn [negb]. rewrite (strict_eq_false _ _ Hd).
    unfold clearBadge.
    destruct Hcase as [Hnone | (d & Hsome & Hbl)].
    + rewrite Hnone. repeat break_match; repeat split.
    + rewrite Hsome. cbn [cachedBlacklistedDomains set_currentDomain].
      rewrite Hbl. cbn [negb]. rewrite andb_false_r.
      repeat break_match; repeat split.
Qed.

Lemma toggle_off_keeps_owner_witness :
  snd (onMessage https_hostname sample_env GetStatus toggled_off)
  = Some (StatusReply false (Some "example.com") (Some "0xabc") None None None)
  /\ ethAddress (handleTabUpdate https_hostname sample_env
                   (mkTab (Some 7%Z) (Some "about:blank")) on_example) = None.
Proof.
  destruct (toggle_off_keeps_owner https_hostname sample_env sample_env on_example)
    as [H1 H2].
  split.
  - apply H1. reflexivity.
  - apply (H2 (mkTab (Some 7%Z) (Some "about:blank")));
      [reflexivity | reflexivity | discriminate | left; reflexivity].
Defined.

(** C1 as stated fails: example.com is resolved, then monitoring is
    toggled off; the owner is still there while monitoring is disabled, and
    getStatus returns its address. *)
Lemma toggle_off_counterexample :
  isExtensionEnabled toggled_off = false
  /\ ethAddress toggled_off = Some "0xabc"
  /\ snd (onMessage https_hostname sample_env GetStatus toggled_off)
     = Some (StatusReply false (Some "example.com") (Some "0xabc")
                         None None None).
Proof. repeat split. Qed.

(** C9, as the code has it: every mutation request is answered with
    success: true at once, whatever the storage calls do; when a storage
    call is rejected the module-level variables and the storage area are
    left as they were. *)
Theorem mutation_reply_ignores_storage_failure
    (URL_hostname : string -> option string) (env : Env) (request : Request)
    (w : World) :
  is_mutation request = true ->
  snd (onMessage URL_hostname env request w) = Some (SuccessReply true)
  /\ (storageFault env <> NoFault ->
      memory (fst (onMessage URL_hostname env request w)) = memory w
      /\ storage (fst (onMessage URL_hostname env request w)) = storage w).
Proof.
  intros Hm.
  destruct request; try discriminate Hm; (split; [reflexivity|]); intros Hf;
    unfold onMessage, addToRecentChats, removeFromRecentChats, addToBlacklist,
      removeFromBlacklist, storage_get, storage_set;
    destruct (storageFault env); try (now contradiction Hf);
    repeat break_match; now split.
Qed.

Lemma mutation_reply_ignores_storage_failure_witness :
  snd (onMessage https_hostname (failing_env GetRejects)
         (RemoveFromBlacklist "example.com") on_example)
  = Some (SuccessReply true)
  /\ memory (fst (onMessage https_hostname (failing_env GetRejects)
                    (RemoveFromBlacklist "example.com") on_example))
     = memory on_example.
Proof.
  destruct (mutation_reply_ignores_storage_failure
              https_hostname (failing_env GetRejects)
              (RemoveFromBlacklist "example.com") on_example)
    as [H1 H2]; [reflexivity|].
  split; [exact H1|]. apply H2. discriminate.
Defined.

(** C9 as stated fails: the storage area refuses the write of the
    blacklist, the promise of addToBlacklist is rejected with nobody
    awaiting it, and the reply is success: true. *)
Lemma mutation_reply_counterexample :
  storageFault (failing_env SetRejects) = SetRejects
  /\ addToBlacklist https_hostname (failing_env SetRejects) "example.com"
                    initial_world
     = (initial_world, Rejected)
  /\ snd (onMessage https_hostname (failing_env SetRejects)
            (AddToBlacklist "example.com") initial_world)
     = Some (SuccessReply true).
Proof. repeat split. Qed.

(** * Further properties of the code *)

(** ** Tab updates *)

Lemma strict_eq_spec (a b : option string) : strict_eq a b = true <-> a = b.
Proof.
  destruct a as [x|], b as [y|]; simpl.
  - rewrite String.eqb_eq. split; [now intros -> | now intros [= ->]].
  - split; discriminate.
  - split; discriminate.
  - tauto.
Qed.

(** What the last part of [handleTabUpdate] asks of the browser. *)
Lemma settle_effects (tab : Tab) (domain : string) (show : bool)
    (reply : FetchResult) (w : World) :
  let w' := handleTabUpdate_settle tab domain show reply w in
  currentDomain w' = currentDomain w
  /\ exists newer,
       effects w' = (newer ++ effects w)%list
       /\ (forall x, ~ In (Fetch x) newer)
       /\ (forall x, In (PopupTimer x) newer ->
             x = domain /\ show = true
             /\ truthy (ethAddress w') = true
             /\ truthy_id (tab_id tab) = true).
Proof.
  unfold handleTabUpdate_settle, clearBadge.
  destruct (resolveNameAddress reply) as [nameData|].
  2:{ split; [reflexivity|]. exists []. simpl. repeat split; tauto. }
  destruct (claimedBy nameData) as [owner|].
  2:{ destruct (tab_id tab) as [i|]; [destruct (truthy_id (Some i))|].
      - split; [reflexivity|]. exists [SetBadgeText i ""].
        split; [reflexivity|]. split.
        + intros x [H|H]; try discriminate H; exact H.
        + intros x [H|H]; try discriminate H; contradiction.
      - split; [reflexivity|]. exists []. simpl. repeat split; tauto.
      - split; [reflexivity|]. exists []. simpl. repeat split; tauto. }
  cbv zeta. destruct (tab_id tab) as [i|].
  2:{ split; [reflexivity|]. exists []. simpl. repeat split; tauto. }
  cbn [ethAddress set_owner].
  destruct (truthy (address (parseCAIP10 owner))) eqn:Ht;
    destruct (truthy_id (Some i)) eqn:Hi; cbn [andb].
  - destruct show; (split; [reflexivity|]).
    + exists [PopupTimer domain; SetBadgeBackgroundColor i "#10B981";
              SetBadgeText i "●"].
      split; [reflexivity|]. split.
      * intros x [H|[H|[H|H]]]; try discriminate H; exact H.
      * intros x [H|[H|[H|H]]]; try discriminate H; try contradiction.
        injection H as <-. split; [reflexivity|]. split; [reflexivity|].
        split; first [exact Ht | reflexivity].
    + exists [SetBadgeBackgroundColor i "#10B981"; SetBadgeText i "●"].
      split; [reflexivity|]. split.
      * intros x [H|[H|H]]; try discriminate H; exact H.
      * intros x [H|[H|H]]; try discriminate H; contradiction.
  - split; [reflexivity|]. exists []. simpl. repeat split; tauto.
  - split; [reflexivity|]. exists [SetBadgeText i ""].
    split; [reflexivity|]. split.
    + intros x [H|H]; try discriminate H; exact H.
    + intros x [H|H]; try discriminate H; contradiction.
  - split; [reflexivity|]. exists []. simpl. repeat split; tauto.
Qed.

Lemma handleTabUpdate_tracks (URL_hostname : string -> option string)
    (env : Env) (tab : Tab) (w : World) :
  isExtensionEnabled w = true ->
  currentDomain (handleTabUpdate URL_hostname env tab w)
  = extractDomain URL_hostname (tab_url tab).
Proof.
  intros He. unfold handleTabUpdate, handleTabUpdate_begin,
    handleTabUpdate_request.
  rewrite He. cbn [negb].
  destruct (strict_eq _ _) eqn:Hs.
  - apply strict_eq_spec in Hs. now rewrite Hs.
  - assert (Helse : forall w0 : World,
      currentDomain (if truthy_id (tab_id tab)
                     then clear_owner (clearBadge tab w0) else w0)
      = currentDomain w0).
    { intros w0. unfold clearBadge. repeat break_match; reflexivity. }
    destruct (extractDomain URL_hostname (tab_url tab)) as [d|];
      [|apply (Helse (set_currentDomain None w))].
    destruct (truthy (Some d) && _);
      [|apply (Helse (set_currentDomain (Some d) w))].
    match goal with
    | |- context [handleTabUpdate_settle ?t ?dd ?s ?r ?w0] =>
        destruct (settle_effects t dd s r w0) as [Hc _]
    end.
    rewrite Hc. reflexivity.
Qed.

(** X1: a tab update handled twice in a row for the same tab changes
    nothing the second time, whatever the browser answers then: the world
    after the second run is the world after the first, so no second request
    is sent. *)
Theorem handleTabUpdate_idempotent (URL_hostname : string -> option string)
    (env1 env2 : Env) (tab : Tab) (w : World) :
  handleTabUpdate URL_hostname env2 tab (handleTabUpdate URL_hostname env1 tab w)
  = handleTabUpdate URL_hostname env1 tab w.
Proof.
  destruct (isExtensionEnabled w) eqn:He.
  - pose proof (handleTabUpdate_tracks URL_hostname env1 tab w He) as Ht.
    destruct (handleTabUpdate_keeps_lists URL_hostname env1 tab w)
      as (_ & _ & Hen).
    set (w' := handleTabUpdate URL_hostname env1 tab w) in *.
    unfold handleTabUpdate at 1. unfold handleTabUpdate_begin.
    rewrite Hen, He. cbn [negb]. rewrite Ht.
    replace (strict_eq _ _) with true; [reflexivity|].
    symmetry. now apply strict_eq_spec.
  - assert (H : handleTabUpdate URL_hostname env1 tab w = w).
    { unfold handleTabUpdate, handleTabUpdate_begin. now rewrite He. }
    rewrite H. unfold handleTabUpdate, handleTabUpdate_begin. now rewrite He.
Qed.

(** What one run of [handleTabUpdate] asks of the browser. *)
Lemma handleTabUpdate_effects (URL_hostname : string -> option string)
    (env : Env) (tab : Tab) (w : World) :
  let w' := handleTabUpdate URL_hostname env tab w in
  exists newer,
    effects w' = (newer ++ effects w)%list
    /\ length (filter is_fetch newer) <= 1
    /\ (forall d, In (Fetch d) newer ->
          isExtensionEnabled w = true
          /\ extractDomain URL_hostname (tab_url tab) = Some d
          /\ currentDomain w <> Some d
          /\ array_includes d (cachedBlacklistedDomains w) = false)
    /\ (forall d, In (PopupTimer d) newer ->
          extractDomain URL_hostname (tab_url tab) = Some d
          /\ shouldAutoOpenPopup env d w = true
          /\ truthy (ethAddress w') = true
          /\ truthy_id (tab_id tab) = true).
Proof.
  assert (Hnone : forall w0 : World, effects w0 = effects w ->
    exists newer,
      effects w0 = (newer ++ effects w)%list
      /\ length (filter is_fetch newer) <= 1
      /\ (forall d, In (Fetch d) newer ->
            isExtensionEnabled w = true
            /\ extractDomain URL_hostname (tab_url tab) = Some d
            /\ currentDomain w <> Some d
            /\ array_includes d (cachedBlacklistedDomains w) = false)
      /\ (forall d, In (PopupTimer d) newer ->
            extractDomain URL_hostname (tab_url tab) = Some d
            /\ shouldAutoOpenPopup env d w = true
            /\ truthy (ethAddress w0) = true
            /\ truthy_id (tab_id tab) = true)).
  { intros w0 H0. exists []. simpl. repeat split; try tauto. lia. }
  assert (Hclear : forall w0 : World, effects w0 = effects w ->
    exists newer,
      effects (if truthy_id (tab_id tab)
               then clear_owner (clearBadge tab w0) else w0)
      = (newer ++ effects w)%list
      /\ length (filter is_fetch newer) <= 1
      /\ (forall d, In (Fetch d) newer ->
            isExtensionEnabled w = true
            /\ extractDomain URL_hostname (tab_url tab) = Some d
            /\ currentDomain w <> Some d
            /\ array_includes d (cachedBlacklistedDomains w) = false)
      /\ (forall d, In (PopupTimer d) newer ->
            extractDomain URL_hostname (tab_url tab) = Some d
            /\ shouldAutoOpenPopup env d w = true
            /\ truthy (ethAddress (if truthy_id (tab_id tab)
                                   then clear_owner (clearBadge tab w0)
                                   else w0)) = true
            /\ truthy_id (tab_id tab) = true)).
  { intros w0 H0. unfold clearBadge.
    destruct (tab_id tab) as [i|]; [destruct (truthy_id (Some i))|].
    - exists [SetBadgeText i ""]. cbn [effects clear_owner set_owner emit app].
      rewrite H0. split; [reflexivity|]. split; [simpl; lia|]. split.
      + intros d [H|H]; [discriminate H | contradiction].
      + intros d [H|H]; [discriminate H | contradiction].
    - now apply Hnone.
    - now apply Hnone. }
  intros w'. unfold w', handleTabUpdate, handleTabUpdate_begin,
    handleTabUpdate_request.
  destruct (isExtensionEnabled w) eqn:He; cbn [negb];
    [|now apply Hnone].
  destruct (strict_eq _ _) eqn:Hs; [now apply Hnone|].
  destruct (extractDomain URL_hostname (tab_url tab)) as [d|] eqn:Hx;
    [|now apply (Hclear (set_currentDomain None w))].
  destruct (truthy (Some d) && _) eqn:Hg;
    [|now apply (Hclear (set_currentDomain (Some d) w))].
  apply andb_true_iff in Hg. destruct Hg as [_ Hbl].
  apply negb_true_iff in Hbl. cbn [cachedBlacklistedDomains set_currentDomain] in Hbl.
  match goal with
  | |- context [handleTabUpdate_settle ?t ?dd ?s ?r ?w0] =>
      destruct (settle_effects t dd s r w0)
        as (_ & newer & Hn & Hnf & Hp);
      set (w1 := handleTabUpdate_settle t dd s r w0) in *
  end.
  exists (newer ++ [Fetch d])%list.
  split; [rewrite Hn; cbn [effects emit set_currentDomain];
          now rewrite <- app_assoc|].
  assert (Hfil : filter is_fetch newer = []).
  { clear - Hnf. induction newer as [|e l IH]; [reflexivity|].
    cbn [filter]. destruct e; cbn [is_fetch];
      try (apply IH; intros x Hin; apply (Hnf x); now right).
    exfalso. apply (Hnf domain). now left. }
  split; [rewrite filter_app, Hfil; simpl; lia|]. split.
  - intros d' Hin. apply in_app_or in Hin. destruct Hin as [Hin|[Hin|[]]].
    + now apply Hnf in Hin.
    + injection Hin as <-. repeat split; try assumption.
      intros Hc. rewrite Hc in Hs.
      assert (strict_eq (Some d) (Some d) = true) by now apply strict_eq_spec.
      congruence.
  - intros d' Hin. apply in_app_or in Hin. destruct Hin as [Hin|[Hin|[]]];
      [|discriminate Hin].
    destruct (Hp d' Hin) as (-> & Hshow & Ht & Hi).
    repeat split; assumption.
Qed.

(** X2: one run of [handleTabUpdate] sends at most one request to the
    registry, and sends it only when monitoring is enabled, for the domain
    of the tab, when that domain is not the tracked one and is not in the
    cached blacklist. *)
Theorem resolution_request_is_guarded (URL_hostname : string -> option string)
    (env : Env) (tab : Tab) (w : World) (newer : list Effect) :
  effects (handleTabUpdate URL_hostname env tab w) = (newer ++ effects w)%list ->
  length (filter is_fetch newer) <= 1
  /\ (forall d, In (Fetch d) newer ->
        isExtensionEnabled w = true
        /\ extractDomain URL_hostname (tab_url tab) = Some d
        /\ currentDomain w <> Some d
        /\ array_includes d (cachedBlacklistedDomains w) = false).
Proof.
  intros Hn.
  destruct (handleTabUpdate_effects URL_hostname env tab w)
    as (newer' & Hn' & Hl & Hf & _).
  rewrite Hn in Hn'. apply app_inv_tail in Hn'. subst newer'.
  split; assumption.
Qed.

Lemma resolution_request_is_guarded_witness :
  isExtensionEnabled initial_world = true
  /\ extractDomain https_hostname (tab_url tab_example) = Some "example.com".
Proof.
  destruct (resolution_request_is_guarded
              https_hostname sample_env tab_example initial_world
              [PopupTimer "example.com"; SetBadgeBackgroundColor 7 "#10B981";
               SetBadgeText 7 "●"; Fetch "example.com"])
    as [_ H]; [reflexivity|].
  destruct (H "example.com") as (H1 & H2 & _).
  - simpl. tauto.
  - split; assumption.
Defined.

Lemma shouldAutoOpenPopup_true (env : Env) (d : string) (w : World) :
  shouldAutoOpenPopup env d w = true ->
  storageFault env <> GetRejects
  /\ ~ In d (map chat_domain (stored_chats w))
  /\ ~ In d (stored_blacklist w).
Proof.
  unfold shouldAutoOpenPopup, storage_get, stored_chats, stored_blacklist.
  destruct (storageFault env); try discriminate;
    cbv zeta; intros H; apply andb_true_iff in H; destruct H as [H1 H2];
    apply negb_true_iff in H1, H2;
    (split; [discriminate|]); split.
  all: try (intros Hin; apply in_map_iff in Hin; destruct Hin as (c & Hc & Hin);
            assert (Hex : existsb (fun chat => chat_domain chat =? d)
                            (or_empty (recentChats (storage w))) = true)
              by (apply existsb_exists; exists c; split;
                  [exact Hin | now apply String.eqb_eq]);
            congruence).
  all: intros Hin;
       assert (Hex : array_includes d
                       (or_empty (blacklistedDomains (storage w))) = true)
         by (apply existsb_exists; exists d; split;
             [exact Hin | apply String.eqb_refl]);
       congruence.
Qed.

(** X3: the popup timer is started only for the domain of the tab, when
    the storage area could be read, the domain is neither among the recent
    contacts nor in the stored blacklist, the address that was stored is not
    empty and the tab has an id. *)
Theorem popup_only_for_new_contact (URL_hostname : string -> option string)
    (env : Env) (tab : Tab) (w : World) (newer : list Effect) (d : string) :
  effects (handleTabUpdate URL_hostname env tab w) = (newer ++ effects w)%list ->
  In (PopupTimer d) newer ->
  extractDomain URL_hostname (tab_url tab) = Some d
  /\ storageFault env <> GetRejects
  /\ ~ In d (map chat_domain (stored_chats w))
  /\ ~ In d (stored_blacklist w)
  /\ truthy (ethAddress (handleTabUpdate URL_hostname env tab w)) = true
  /\ truthy_id (tab_id tab) = true.
Proof.
  intros Hn Hin.
  destruct (handleTabUpdate_effects URL_hostname env tab w)
    as (newer' & Hn' & _ & _ & Hp).
  rewrite Hn in Hn'. apply app_inv_tail in Hn'. subst newer'.
  destruct (Hp d Hin) as (Hx & Hs & Ht & Hi).
  destruct (shouldAutoOpenPopup_true env d w Hs) as (Hf & Hc & Hb).
  repeat split; assumption.
Qed.

Lemma popup_only_for_new_contact_witness :
  ~ In "example.com" (map chat_domain (stored_chats initial_world))
  /\ truthy (ethAddress on_example) = true.
Proof.
  destruct (popup_only_for_new_contact
              https_hostname sample_env tab_example initial_world
              [PopupTimer "example.com"; SetBadgeBackgroundColor 7 "#10B981";
               SetBadgeText 7 "●"; Fetch "example.com"] "example.com")
    as (_ & _ & H3 & _ & H5 & _).
  - reflexivity.
  - simpl. tauto.
  - split; assumption.
Defined.

(** ** The stored collections over any sequence of events *)

Lemma store_invariant_same (w w' : World) :
  storage w' = storage w ->
  cachedBlacklistedDomains w' = cachedBlacklistedDomains w ->
  store_invariant w -> store_invariant w'.
Proof.
  unfold store_invariant, stored_blacklist, stored_chats.
  intros -> ->. tauto.
Qed.

Lemma store_invariant_lists (w w' : World) :
  stored_blacklist w' = stored_blacklist w ->
  stored_chats w' = stored_chats w ->
  cachedBlacklistedDomains w' = cachedBlacklistedDomains w ->
  store_invariant w -> store_invariant w'.
Proof.
  unfold store_invariant. intros -> -> ->. tauto.
Qed.

Lemma store_invariant_handleTabUpdate (URL_hostname : string -> option string)
    (env : Env) (tab : Tab) (w : World) :
  store_invariant w ->
  store_invariant (handleTabUpdate URL_hostname env tab w).
Proof.
  destruct (handleTabUpdate_keeps_lists URL_hostname env tab w)
    as (Hs & Hc & _).
  now apply store_invariant_same.
Qed.

Lemma store_invariant_detach (r : World * Settled) :
  store_invariant (fst r) -> store_invariant (detach r).
Proof.
  destruct r as [w []]; [tauto|]. now apply store_invariant_same.
Qed.

Lemma array_includes_In (d : string) (l : list string) :
  array_includes d l = true <-> In d l.
Proof.
  unfold array_includes. rewrite existsb_exists. split.
  - intros (x & Hin & He). apply String.eqb_eq in He. now subst.
  - intros Hin. exists d. split; [assumption | apply String.eqb_refl].
Qed.

Lemma NoDup_pushed (d : string) (l : list string) :
  NoDup l -> array_includes d l = false -> NoDup (l ++ [d]).
Proof.
  intros Hn Hd. apply NoDup_app; [assumption | repeat constructor; tauto |].
  intros x Hx [Hx'|[]]. subst x.
  apply array_includes_In in Hx. congruence.
Qed.

Lemma store_invariant_addToRecentChats (env : Env) (d a : string)
    (p : option string) (n : option Z) (c : option string) (w : World) :
  store_invariant w ->
  store_invariant (fst (addToRecentChats env d a p n c w)).
Proof.
  intros (Hc & Hb & Hl & Hn). unfold addToRecentChats, storage_get, storage_set.
  destruct (storageFault env); cbn [fst];
    try (repeat split; assumption);
    unfold store_invariant, stored_blacklist, stored_chats in *;
    cbn [storage set_storage write_recentChats recentChats blacklistedDomains
         cachedBlacklistedDomains or_empty];
    (split; [exact Hc|]); (split; [exact Hb|]);
    (split; [apply firstn_le_length|]);
    apply NoDup_domains_firstn; cbn [map chat_domain]; constructor;
    [apply filter_other_domain_not_in | now apply NoDup_domains_filter].
Qed.

Lemma store_invariant_removeFromRecentChats (env : Env) (d : string)
    (w : World) :
  store_invariant w ->
  store_invariant (fst (removeFromRecentChats env d w)).
Proof.
  intros (Hc & Hb & Hl & Hn).
  unfold removeFromRecentChats, storage_get, storage_set.
  destruct (storageFault env); cbn [fst];
    try (repeat split; assumption);
    unfold store_invariant, stored_blacklist, stored_chats in *;
    cbn [storage set_storage write_recentChats recentChats blacklistedDomains
         cachedBlacklistedDomains or_empty];
    (split; [exact Hc|]); (split; [exact Hb|]);
    (split; [|now apply NoDup_domains_filter]);
    pose proof (filter_length_le (other_domain d)
                  (or_empty (recentChats (storage w)))); lia.
Qed.

Lemma store_invariant_addToBlacklist (URL_hostname : string -> option string)
    (env : Env) (d : string) (w : World) :
  store_invariant w ->
  store_invariant (fst (addToBlacklist URL_hostname env d w)).
Proof.
  intros Hinv. unfold addToBlacklist, storage_get, storage_set.
  assert (Hgo : forall w0 : World,
    array_includes d (or_empty (blacklistedDomains (storage w))) = false ->
    storage w0 = write_blacklistedDomains
                   (or_empty (blacklistedDomains (storage w)) ++ [d])%list
                   (storage w) ->
    cachedBlacklistedDomains w0
    = (or_empty (blacklistedDomains (storage w)) ++ [d])%list ->
    store_invariant w0).
  { intros w0 Hd Hs Hc. destruct Hinv as (_ & Hb & Hl & Hn).
    unfold store_invariant, stored_blacklist, stored_chats in *.
    rewrite Hs, Hc. cbn [write_blacklistedDomains blacklistedDomains
                         recentChats or_empty].
    repeat split; try assumption. now apply NoDup_pushed. }
  destruct (storageFault env); cbn [fst];
    destruct (array_includes d (or_empty (blacklistedDomains (storage w))))
      eqn:Hd; cbn [negb fst]; try exact Hinv;
    unfold clearBadge; repeat break_match; cbn [fst];
    apply Hgo; reflexivity || assumption.
Qed.

Lemma store_invariant_removeFromBlacklist
    (URL_hostname : string -> option string) (env : Env) (d : string)
    (w : World) :
  store_invariant w ->
  store_invariant (fst (removeFromBlacklist URL_hostname env d w)).
Proof.
  intros Hinv. unfold removeFromBlacklist, storage_get, storage_set.
  assert (Hgo : forall w0 : World,
    storage w0 = write_blacklistedDomains
                   (filter (fun x => negb (x =? d))
                           (or_empty (blacklistedDomains (storage w))))
                   (storage w) ->
    cachedBlacklistedDomains w0
    = filter (fun x => negb (x =? d))
             (or_empty (blacklistedDomains (storage w))) ->
    store_invariant w0).
  { intros w0 Hs Hc. destruct Hinv as (_ & Hb & Hl & Hn).
    unfold store_invariant, stored_blacklist, stored_chats in *.
    rewrite Hs, Hc. cbn [write_blacklistedDomains blacklistedDomains
                         recentChats or_empty].
    repeat split; try assumption. now apply NoDup_filter. }
  destruct (storageFault env); cbn [fst]; try exact Hinv;
    destruct (activeTab env) as [tab0|]; cbn [fst];
    try (apply Hgo; reflexivity);
    destruct (strict_eq _ _); cbn [fst];
    try (apply Hgo; reflexivity);
    apply store_invariant_handleTabUpdate; apply Hgo; reflexivity.
Qed.

Lemma store_invariant_onMessage (URL_hostname : string -> option string)
    (env : Env) (request : Request) (w : World) :
  store_invariant w ->
  store_invariant (fst (onMessage URL_hostname env request w)).
Proof.
  intros Hinv. destruct request; cbn [onMessage fst]; try exact Hinv.
  - now apply store_invariant_detach, store_invariant_addToRecentChats.
  - destruct (storage_get env w); exact Hinv.
  - now apply store_invariant_detach, store_invariant_removeFromRecentChats.
  - now apply store_invariant_detach, store_invariant_addToBlacklist.
  - destruct (storage_get env w); exact Hinv.
  - now apply store_invariant_detach, store_invariant_removeFromBlacklist.
  - assert (H1 : store_invariant
        (match storage_set env
                 (write_extensionEnabled
                    (isExtensionEnabled
                       (set_enabled (negb (isExtensionEnabled w)) w)))
                 (set_enabled (negb (isExtensionEnabled w)) w) with
         | Some w' => w'
         | None => emit UnhandledRejection
                        (set_enabled (negb (isExtensionEnabled w)) w)
         end)).
    { unfold storage_set. destruct (storageFault env);
        (eapply store_invariant_lists; [| | |exact Hinv]); reflexivity. }
    revert H1. generalize (match storage_set env
                 (write_extensionEnabled
                    (isExtensionEnabled
                       (set_enabled (negb (isExtensionEnabled w)) w)))
                 (set_enabled (negb (isExtensionEnabled w)) w) with
         | Some w' => w'
         | None => emit UnhandledRejection
                        (set_enabled (negb (isExtensionEnabled w)) w)
         end).
    intros w1 H1. cbv zeta.
    destruct (negb (isExtensionEnabled w1)); destruct (activeTab env) as [tab0|].
    + unfold clearBadge. repeat break_match;
        (eapply store_invariant_same; [| |exact H1]); reflexivity.
    + exact H1.
    + apply store_invariant_handleTabUpdate.
      eapply store_invariant_same; [| |exact H1]; reflexivity.
    + eapply store_invariant_same; [| |exact H1]; reflexivity.
Qed.

Lemma store_invariant_step (URL_hostname : string -> option string)
    (env : Env) (e : Event) (w : World) :
  store_invariant w -> store_invariant (step URL_hostname env e w).
Proof.
  intros Hinv. destruct e as [|status tab|tab|request]; cbn [step].
  - unfold installed, storage_get. destruct (storageFault env); try exact Hinv;
      destruct Hinv as (_ & Hb & Hl & Hn);
      unfold store_invariant, stored_blacklist, stored_chats in *;
      repeat split; assumption.
  - unfold onUpdated. destruct (_ && _); [|exact Hinv].
    now apply store_invariant_handleTabUpdate.
  - unfold onActivated. destruct (truthy _); [|exact Hinv].
    now apply store_invariant_handleTabUpdate.
  - now apply store_invariant_onMessage.
Qed.

Lemma store_invariant_run (URL_hostname : string -> option string)
    (trace : list (Env * Event)) (w : World) :
  store_invariant w -> store_invariant (run URL_hostname trace w).
Proof.
  revert w. induction trace as [|[env e] rest IH]; intros w Hinv;
    [exact Hinv|].
  cbn [run]. apply IH. now apply store_invariant_step.
Qed.

Lemma store_invariant_initial : store_invariant initial_world.
Proof.
  unfold store_invariant. simpl. repeat split; try constructor. lia.
Qed.

Lemma cache_matches_lists (w w' : World) :
  stored_blacklist w' = stored_blacklist w ->
  cachedBlacklistedDomains w' = cachedBlacklistedDomains w ->
  cachedBlacklistedDomains w = stored_blacklist w ->
  cachedBlacklistedDomains w' = stored_blacklist w'.
Proof. intros -> ->. tauto. Qed.

Lemma cache_matches_handleTabUpdate (URL_hostname : string -> option string)
    (env : Env) (tab : Tab) (w : World) :
  cachedBlacklistedDomains w = stored_blacklist w ->
  cachedBlacklistedDomains (handleTabUpdate URL_hostname env tab w)
  = stored_blacklist (handleTabUpdate URL_hostname env tab w).
Proof.
  destruct (handleTabUpdate_keeps_lists URL_hostname env tab w)
    as (Hs & Hc & _).
  apply cache_matches_lists; [unfold stored_blacklist; now rewrite Hs | exact Hc].
Qed.

Lemma cache_matches_detach (r : World * Settled) :
  cachedBlacklistedDomains (fst r) = stored_blacklist (fst r) ->
  cachedBlacklistedDomains (detach r) = stored_blacklist (detach r).
Proof. destruct r as [w []]; tauto. Qed.

Lemma cache_matches_onMessage (URL_hostname : string -> option string)
    (env : Env) (request : Request) (w : World) :
  cachedBlacklistedDomains w = stored_blacklist w ->
  cachedBlacklistedDomains (fst (onMessage URL_hostname env request w))
  = stored_blacklist (fst (onMessage URL_hostname env request w)).
Proof.
  intros Hinv. destruct request; cbn [onMessage fst]; try exact Hinv.
  - apply cache_matches_detach.
    unfold addToRecentChats, storage_get, storage_set.
    destruct (storageFault env); exact Hinv.
  - destruct (storage_get env w); exact Hinv.
  - apply cache_matches_detach.
    unfold removeFromRecentChats, storage_get, storage_set.
    destruct (storageFault env); exact Hinv.
  - apply cache_matches_detach.
    unfold addToBlacklist, storage_get, storage_set, clearBadge.
    destruct (storageFault env); cbn [fst]; try exact Hinv;
      repeat break_match; cbn [fst]; try exact Hinv; reflexivity.
  - destruct (storage_get env w); exact Hinv.
  - apply cache_matches_detach.
    unfold removeFromBlacklist, storage_get, storage_set.
    destruct (storageFault env); cbn [fst]; try exact Hinv;
      destruct (activeTab env) as [tab0|]; cbn [fst]; try reflexivity;
      destruct (strict_eq _ _); cbn [fst]; try reflexivity;
      now apply cache_matches_handleTabUpdate.
  - set (w1 := match storage_set env _ _ with Some w' => w' | None => _ end).
    assert (H1 : cachedBlacklistedDomains w1 = stored_blacklist w1).
    { unfold w1, storage_set. destruct (storageFault env); exact Hinv. }
    clearbody w1. cbv zeta.
    destruct (negb (isExtensionEnabled w1)); destruct (activeTab env) as [tab0|].
    + unfold clearBadge. repeat break_match; exact H1.
    + exact H1.
    + now apply cache_matches_handleTabUpdate.
    + exact H1.
Qed.

Lemma cache_matches_step (URL_hostname : string -> option string)
    (env : Env) (e : Event) (w : World) :
  cachedBlacklistedDomains w = stored_blacklist w ->
  cachedBlacklistedDomains (step URL_hostname env e w)
  = stored_blacklist (step URL_hostname env e w).
Proof.
  intros Hinv. destruct e as [|status tab|tab|request]; cbn [step].
  - unfold installed, storage_get.
    destruct (storageFault env); try exact Hinv; reflexivity.
  - unfold onUpdated. destruct (_ && _); [|exact Hinv].
    now apply cache_matches_handleTabUpdate.
  - unfold onActivated. destruct (truthy _); [|exact Hinv].
    now apply cache_matches_handleTabUpdate.
  - now apply cache_matches_onMessage.
Qed.

Lemma cache_matches_run (URL_hostname : string -> option string)
    (trace : list (Env * Event)) (w : World) :
  cachedBlacklistedDomains w = stored_blacklist w ->
  cachedBlacklistedDomains (run URL_hostname trace w)
  = stored_blacklist (run URL_hostname trace w).
Proof.
  revert w. induction trace as [|[env e] rest IH]; intros w Hinv;
    [exact Hinv|].
  cbn [run]. apply IH. now apply cache_matches_step.
Qed.

(** X4: once the install listener has read the storage area, the cached
    blacklist is the stored blacklist, from any state of the script and
    after any events that follow, whatever the later storage calls do; and
    events keep the two equal from any state in which they are equal.  A
    script loaded afresh over a stored blacklist has an empty cache until
    that listener runs, and a tab update for a stored-blacklisted domain
    then sends a request. *)
Theorem cached_blacklist_matches_store
    (URL_hostname : string -> option string) (env : Env)
    (trace : list (Env * Event)) (w : World) (s : Storage) :
  (storageFault env <> GetRejects ->
   cachedBlacklistedDomains (run URL_hostname ((env, Installed) :: trace) w)
   = stored_blacklist (run URL_hostname ((env, Installed) :: trace) w))
  /\ (cachedBlacklistedDomains w = stored_blacklist w ->
      cachedBlacklistedDomains (run URL_hostname trace w)
      = stored_blacklist (run URL_hostname trace w))
  /\ cachedBlacklistedDomains (restarted_world s) = []
  /\ (forall (tab : Tab) (d : string),
        extractDomain URL_hostname (tab_url tab) = Some d ->
        In (Fetch d)
           (effects (handleTabUpdate URL_hostname env tab (restarted_world s)))).
Proof.
  split; [|split; [|split]].
  - intros Hf. cbn [run step]. apply cache_matches_run.
    unfold installed, storage_get.
    destruct (storageFault env); try (now contradiction Hf); reflexivity.
  - apply cache_matches_run.
  - reflexivity.
  - intros tab d Hx.
    set (w0 := restarted_world s).
    assert (He : isExtensionEnabled w0 = true) by reflexivity.
    assert (Hc : currentDomain w0 = None) by reflexivity.
    assert (Hb : cachedBlacklistedDomains w0 = []) by reflexivity.
    clearbody w0.
    unfold handleTabUpdate, handleTabUpdate_begin, handleTabUpdate_request.
    rewrite He. cbn [negb]. rewrite Hx, Hc. cbn [strict_eq].
    rewrite (extractDomain_truthy _ _ _ Hx).
    cbn [cachedBlacklistedDomains set_currentDomain]. rewrite Hb.
    cbn [array_includes existsb negb andb].
    match goal with
    | |- context [handleTabUpdate_settle ?t ?dd ?sh ?r ?w0] =>
        destruct (settle_keeps_lists t dd sh r w0) as (_ & _ & _ & newer & Hn)
    end.
    rewrite Hn. apply in_or_app. right. now left.
Qed.

Lemma cached_blacklist_matches_store_witness :
  cachedBlacklistedDomains
    (run https_hostname
         [(sample_env, Installed);
          (sample_env, TabUpdated (Some "complete") tab_example)]
         (restarted_world (mkStorage JsUndefined (Some ["example.com"]) None)))
  = ["example.com"]
  /\ cachedBlacklistedDomains
       (run https_hostname
            [(sample_env, Message (AddToBlacklist "other.org"))] initial_world)
     = ["other.org"].
Proof.
  split.
  - destruct (cached_blacklist_matches_store
                https_hostname sample_env
                [(sample_env, TabUpdated (Some "complete") tab_example)]
                (restarted_world
                   (mkStorage JsUndefined (Some ["example.com"]) None))
                (mkStorage JsUndefined None None))
      as (H & _).
    etransitivity; [apply H; discriminate | reflexivity].
  - destruct (cached_blacklist_matches_store
                https_hostname sample_env
                [(sample_env, Message (AddToBlacklist "other.org"))]
                initial_world (mkStorage JsUndefined None None))
      as (_ & H & _).
    etransitivity; [apply H; reflexivity | reflexivity].
Defined.

(** X5: after any sequence of events from the start of the script, no
    domain is in the stored blacklist twice. *)
Theorem blacklist_never_lists_twice
    (URL_hostname : string -> option string) (trace : list (Env * Event)) :
  NoDup (stored_blacklist (run URL_hostname trace initial_world)).
Proof.
  apply (store_invariant_run URL_hostname trace initial_world).
  apply store_invariant_initial.
Qed.

(** X6: after any sequence of events from the start of the script
    (additions, removals, failed storage calls, tab updates, toggles), the
    recent contacts are at most ten and hold one entry per domain. *)
Theorem recent_chats_bounded_and_distinct
    (URL_hostname : string -> option string) (trace : list (Env * Event)) :
  length (stored_chats (run URL_hostname trace initial_world)) <= 10
  /\ NoDup (map chat_domain
              (stored_chats (run URL_hostname trace initial_world))).
Proof.
  apply (store_invariant_run URL_hostname trace initial_world).
  apply store_invariant_initial.
Qed.

(** ** Removing a recent contact *)

Lemma filter_all_pass {A : Type} (p : A -> bool) (l : list A) :
  (forall x, In x l -> p x = true) -> filter p l = l.
Proof.
  induction l as [|x l IH]; intros H; [reflexivity|].
  cbn [filter]. rewrite (H x (or_introl eq_refl)). f_equal.
  apply IH. intros y Hy. apply H. now right.
Qed.

Lemma filter_all_pass_none {A : Type} (p : A -> bool) (l : list A) :
  (forall x, In x l -> p x = false) -> filter p l = [].
Proof.
  induction l as [|x l IH]; intros H; [reflexivity|].
  cbn [filter]. rewrite (H x (or_introl eq_refl)).
  apply IH. intros y Hy. apply H. now right.
Qed.

Lemma filter_firstn_filter {A : Type} (p : A -> bool) (n : nat) (l : list A) :
  filter p (firstn n (filter p l)) = firstn n (filter p l).
Proof.
  apply filter_all_pass. intros x Hx.
  assert (Hin : In x (filter p l)).
  { rewrite <- (firstn_skipn n (filter p l)). apply in_or_app. now left. }
  now apply filter_In in Hin.
Qed.

Lemma stored_chats_after_removal (URL_hostname : string -> option string)
    (env : Env) (d : string) (w : World) :
  storageFault env = NoFault ->
  stored_chats (fst (onMessage URL_hostname env (RemoveFromRecentChats d) w))
  = filter (other_domain d) (stored_chats w).
Proof.
  intros Hf. unfold onMessage, removeFromRecentChats, storage_get, storage_set.
  rewrite Hf. reflexivity.
Qed.

(** X7: adding a domain to the recent contacts and removing it again
    leaves the first nine of the other entries: the list as it was when the
    domain was not listed and fewer than ten entries were there, and the
    list without its oldest entry when it was full. *)
Theorem add_then_remove_recent_chat (URL_hostname : string -> option string)
    (env1 env2 : Env) (d a : string) (p : option string) (n : option Z)
    (c : option string) (w : World) :
  storageFault env1 = NoFault ->
  storageFault env2 = NoFault ->
  let w2 :=
    fst (onMessage URL_hostname env2 (RemoveFromRecentChats d)
           (fst (onMessage URL_hostname env1 (AddToRecentChats d a p n c) w)))
  in
  stored_chats w2 = firstn 9 (filter (other_domain d) (stored_chats w))
  /\ ~ In d (map chat_domain (stored_chats w2))
  /\ (~ In d (map chat_domain (stored_chats w)) ->
      length (stored_chats w) < 10 ->
      stored_chats w2 = stored_chats w)
  /\ (~ In d (map chat_domain (stored_chats w)) ->
      length (stored_chats w) = 10 ->
      stored_chats w2 = removelast (stored_chats w)).
Proof.
  intros Hf1 Hf2 w2.
  assert (Heq : stored_chats w2
                = firstn 9 (filter (other_domain d) (stored_chats w))).
  { unfold w2. rewrite (stored_chats_after_removal _ _ _ _ Hf2).
    pose proof (stored_chats_after_add URL_hostname
                  (mkAddCall env1 d a p n c) w Hf1) as Ha.
    unfold request_of, entry_of in Ha.
    cbn [call_domain call_ethAddress call_price call_decimals call_currency
         call_env] in Ha.
    rewrite Ha, firstn_cons. cbn [filter].
    unfold other_domain at 1. cbn [chat_domain]. rewrite String.eqb_refl.
    cbn [negb]. apply filter_firstn_filter. }
  split; [exact Heq|]. split; [|split].
  - rewrite Heq. intros Hin. apply in_map_firstn in Hin.
    now apply filter_other_domain_not_in in Hin.
  - intros Hn Hl. rewrite Heq, (filter_other_domain_absent _ _ Hn).
    apply firstn_all2. lia.
  - intros Hn Hl. rewrite Heq, (filter_other_domain_absent _ _ Hn).
    now rewrite removelast_firstn_len, Hl.
Qed.

Lemma add_then_remove_recent_chat_witness :
  stored_chats
    (fst (onMessage https_hostname sample_env (RemoveFromRecentChats "example.com")
            (fst (onMessage https_hostname sample_env
                    (AddToRecentChats "example.com" "0xabc" None None None)
                    initial_world))))
  = stored_chats initial_world.
Proof.
  destruct (add_then_remove_recent_chat
              https_hostname sample_env sample_env "example.com" "0xabc"
              None None None initial_world eq_refl eq_refl)
    as (_ & _ & H & _).
  apply H; simpl; [tauto | lia].
Defined.

Lemma removeFromRecentChats_halves (env : Env) (d : string) (w : World) :
  removeFromRecentChats env d w
  = match removeFromRecentChats_read env w with
    | None => (w, Rejected)
    | Some recent => removeFromRecentChats_write env d recent w
    end.
Proof.
  unfold removeFromRecentChats, removeFromRecentChats_read,
    removeFromRecentChats_write.
  destruct (storage_get env w); reflexivity.
Qed.

Lemma stored_chats_after_removals (URL_hostname : string -> option string)
    (env : Env) (domains : list string) (w : World) :
  storageFault env = NoFault ->
  stored_chats (run URL_hostname (removal_requests env domains) w)
  = filter (fun c => negb (array_includes (chat_domain c) domains))
           (stored_chats w).
Proof.
  intros Hf. revert w. induction domains as [|d ds IH]; intros w.
  - cbn. symmetry. apply filter_all_pass. reflexivity.
  - cbn [removal_requests map run step]. fold (removal_requests env ds).
    rewrite IH, (stored_chats_after_removal _ _ _ _ Hf).
    generalize (stored_chats w). intros l.
    induction l as [|c l IHl]; [reflexivity|].
    cbn [filter array_includes existsb]. unfold other_domain at 1.
    rewrite (String.eqb_sym d (chat_domain c)).
    destruct (chat_domain c =? d); cbn [negb orb].
    + exact IHl.
    + cbn [filter]. fold (array_includes (chat_domain c) ds).
      destruct (negb (array_includes (chat_domain c) ds)); [f_equal|];
        exact IHl.
Qed.

(** X8: one removal request per listed domain, handled one after the
    other, leaves the recent contacts empty. *)
Theorem removals_in_turn_clear_the_list
    (URL_hostname : string -> option string) (env : Env) (w : World) :
  storageFault env = NoFault ->
  stored_chats
    (run URL_hostname
         (removal_requests env (map chat_domain (stored_chats w))) w)
  = [].
Proof.
  intros Hf. rewrite (stored_chats_after_removals _ _ _ _ Hf).
  set (l := stored_chats w).
  assert (H : forall l0 : list RecentChat,
    (forall c, In c l0 -> In (chat_domain c) (map chat_domain l)) ->
    filter (fun c => negb (array_includes (chat_domain c)
                                          (map chat_domain l))) l0 = []).
  { induction l0 as [|c l0 IH]; intros Hin; [reflexivity|].
    cbn [filter].
    assert (Hc : array_includes (chat_domain c) (map chat_domain l) = true)
      by (apply array_includes_In, Hin; now left).
    rewrite Hc. cbn [negb]. apply IH. intros c' Hc'. apply Hin. now right. }
  apply H. intros c Hc. now apply in_map.
Qed.

Lemma removals_in_turn_clear_the_list_witness :
  stored_chats
    (run https_hostname
         (removal_requests sample_env
            (map chat_domain
               (stored_chats
                  (after_adds https_hostname [call_first] initial_world))))
         (after_adds https_hostname [call_first] initial_world))
  = [].
Proof.
  apply (removals_in_turn_clear_the_list
           https_hostname sample_env
           (after_adds https_hostname [call_first] initial_world)).
  reflexivity.
Defined.

(** X9: when the same removals have all read the list before any of
    them writes it back, which the un-awaited handlers allow, the list ends
    as the one that was read without the last domain only: every other
    domain is still listed. *)
Theorem removals_that_read_first_lose_all_but_the_last
    (env : Env) (domains : list string) (last_domain : string) (w : World) :
  storageFault env <> SetRejects ->
  let w' := writes_after_reads env (stored_chats w)
                               (domains ++ [last_domain]) w in
  stored_chats w' = filter (other_domain last_domain) (stored_chats w)
  /\ (forall d, d <> last_domain ->
        In d (map chat_domain (stored_chats w)) ->
        In d (map chat_domain (stored_chats w'))).
Proof.
  intros Hf w'.
  assert (Heq : stored_chats w'
                = filter (other_domain last_domain) (stored_chats w)).
  { unfold w', writes_after_reads. rewrite fold_left_app. cbn [fold_left].
    unfold removeFromRecentChats_write, storage_set.
    destruct (storageFault env); try (now contradiction Hf); reflexivity. }
  split; [exact Heq|].
  intros d Hd Hin. rewrite Heq. apply in_map_iff in Hin.
  destruct Hin as (c & Hc & Hin). apply in_map_iff. exists c.
  split; [exact Hc|]. apply filter_In. split; [exact Hin|].
  unfold other_domain. apply negb_true_iff, String.eqb_neq. congruence.
Qed.

Lemma removals_that_read_first_lose_all_but_the_last_witness :
  In "example.com"
     (map chat_domain
        (stored_chats
           (writes_after_reads sample_env
              (stored_chats (after_adds https_hostname [call_first] initial_world))
              (["example.com"] ++ ["other.org"])
              (after_adds https_hostname [call_first] initial_world)))).
Proof.
  destruct (removals_that_read_first_lose_all_but_the_last
              sample_env ["example.com"] "other.org"
              (after_adds https_hostname [call_first] initial_world))
    as [_ H]; [discriminate|].
  apply H; [discriminate | simpl; tauto].
Defined.

(** ** Toggling *)

(** The world after a toggle, as far as the flag and the storage area go. *)
Lemma toggle_flag_and_storage (URL_hostname : string -> option string)
    (env : Env) (w : World) :
  let w' := fst (onMessage URL_hostname env ToggleExtension w) in
  isExtensionEnabled w' = negb (isExtensionEnabled w)
  /\ storage w'
     = match storageFault env with
       | SetRejects => storage w
       | _ => write_extensionEnabled (negb (isExtensionEnabled w)) (storage w)
       end.
Proof.
  cbn [onMessage fst].
  set (w1 := match storage_set env _ _ with Some w' => w' | None => _ end).
  assert (H1 : isExtensionEnabled w1 = negb (isExtensionEnabled w)
               /\ storage w1
                  = match storageFault env with
                    | SetRejects => storage w
                    | _ => write_extensionEnabled
                             (negb (isExtensionEnabled w)) (storage w)
                    end).
  { unfold w1, storage_set. destruct (storageFault env); now split. }
  clearbody w1. destruct H1 as [He Hs]. cbv zeta.
  destruct (negb (isExtensionEnabled w1)); destruct (activeTab env) as [tab0|].
  - unfold clearBadge. repeat break_match; now split.
  - now split.
  - destruct (handleTabUpdate_keeps_lists URL_hostname env tab0 (clear_owner w1))
      as (Hs' & _ & He').
    rewrite Hs', He'. now split.
  - now split.
Qed.

(** X10: a toggle flips the flag and answers with the new value; unless
    the write is refused, loading the settings from the storage area gives
    the new value again; when the write is refused the storage area is as
    before although the flag has flipped. *)
Theorem toggle_is_persisted_unless_write_fails
    (URL_hostname : string -> option string) (env : Env) (w : World) :
  let w' := fst (onMessage URL_hostname env ToggleExtension w) in
  isExtensionEnabled w' = negb (isExtensionEnabled w)
  /\ snd (onMessage URL_hostname env ToggleExtension w)
     = Some (EnabledReply (negb (isExtensionEnabled w)))
  /\ (storageFault env <> SetRejects ->
      isExtensionEnabled (onInstalled (storage w') initial_world)
      = isExtensionEnabled w')
  /\ (storageFault env = SetRejects -> storage w' = storage w).
Proof.
  intros w'.
  destruct (toggle_flag_and_storage URL_hostname env w) as [He Hs].
  fold w' in He, Hs.
  split; [exact He|]. split.
  - cbn [onMessage snd]. f_equal. f_equal. exact He.
  - split.
    + intros Hf. rewrite He, Hs. unfold onInstalled.
      destruct (storageFault env); try (now contradiction Hf);
        cbn; now destruct (isExtensionEnabled w).
    + intros Hf. rewrite Hs, Hf. reflexivity.
Qed.

Lemma toggle_is_persisted_unless_write_fails_witness :
  isExtensionEnabled (onInstalled (storage toggled_off) initial_world) = false
  /\ storage (fst (onMessage https_hostname (failing_env SetRejects)
                     ToggleExtension on_example))
     = storage on_example.
Proof.
  split.
  - destruct (toggle_is_persisted_unless_write_fails
                https_hostname sample_env on_example) as (_ & _ & H & _).
    etransitivity; [apply H; discriminate | reflexivity].
  - destruct (toggle_is_persisted_unless_write_fails
                https_hostname (failing_env SetRejects) on_example)
      as (_ & _ & _ & H).
    apply H. reflexivity.
Defined.

(** X11: when monitoring is switched back on while the active tab still
    shows the tracked domain, the owner variables are cleared and nothing is
    requested: the domain-equality test stops the fresh check, and it stops
    every later update for that domain too. *)
Theorem reenabling_on_tracked_domain_resolves_nothing
    (URL_hostname : string -> option string) (env : Env) (tab : Tab)
    (w : World) :
  isExtensionEnabled w = false ->
  activeTab env = Some tab ->
  extractDomain URL_hostname (tab_url tab) = currentDomain w ->
  let w' := fst (onMessage URL_hostname env ToggleExtension w) in
  isExtensionEnabled w' = true
  /\ currentDomain w' = currentDomain w
  /\ ethAddress w' = None /\ price w' = None
  /\ decimals w' = None /\ currency w' = None
  /\ filter is_fetch (effects w') = filter is_fetch (effects w)
  /\ (forall (env2 : Env) (tab2 : Tab),
        extractDomain URL_hostname (tab_url tab2) = currentDomain w ->
        handleTabUpdate URL_hostname env2 tab2 w' = w').
Proof.
  intros He Ha Hx w'.
  assert (Hw : w' = clear_owner
                 (match storage_set env (write_extensionEnabled true)
                          (set_enabled true w) with
                  | Some w0 => w0
                  | None => emit UnhandledRejection (set_enabled true w)
                  end)).
  { unfold w'. cbn [onMessage fst]. rewrite He. cbn [negb].
    cbn [isExtensionEnabled set_enabled].
    set (w1 := match storage_set env _ _ with Some w0 => w0 | None => _ end).
    assert (H1 : isExtensionEnabled w1 = true
                 /\ currentDomain w1 = currentDomain w).
    { unfold w1, storage_set. destruct (storageFault env); now split. }
    clearbody w1. destruct H1 as [H1 H2]. cbv zeta. rewrite H1. cbn [negb].
    rewrite Ha. unfold handleTabUpdate, handleTabUpdate_begin.
    cbn [isExtensionEnabled clear_owner set_owner currentDomain].
    rewrite H1, H2, Hx. cbn [negb].
    replace (strict_eq _ _) with true; [reflexivity|].
    symmetry. now apply strict_eq_spec. }
  assert (Hfacts : isExtensionEnabled w' = true
                   /\ currentDomain w' = currentDomain w
                   /\ filter is_fetch (effects w') = filter is_fetch (effects w)).
  { rewrite Hw. unfold storage_set.
    destruct (storageFault env); repeat split. }
  destruct Hfacts as (H1 & H2 & H3).
  split; [exact H1|]. split; [exact H2|].
  split; [now rewrite Hw|]. split; [now rewrite Hw|].
  split; [now rewrite Hw|]. split; [now rewrite Hw|].
  split; [exact H3|].
  intros env2 tab2 Hx2. unfold handleTabUpdate, handleTabUpdate_begin.
  rewrite H1, H2, Hx2. cbn [negb].
  replace (strict_eq _ _) with true; [reflexivity|].
  symmetry. now apply strict_eq_spec.
Qed.

Lemma reenabling_on_tracked_domain_resolves_nothing_witness :
  ethAddress (fst (onMessage https_hostname sample_env ToggleExtension
                     toggled_off)) = None
  /\ currentDomain (fst (onMessage https_hostname sample_env ToggleExtension
                           toggled_off)) = Some "example.com".
Proof.
  destruct (reenabling_on_tracked_domain_resolves_nothing
              https_hostname sample_env tab_example toggled_off
              eq_refl eq_refl eq_refl)
    as (_ & H2 & H3 & _).
  split; [exact H3 | exact H2].
Defined.

(** ** Reading back what a request wrote *)

Lemma getBlacklist_reply (URL_hostname : string -> option string)
    (env : Env) (w : World) :
  storageFault env <> GetRejects ->
  snd (onMessage URL_hostname env GetBlacklist w)
  = Some (BlacklistReply (stored_blacklist w)).
Proof.
  intros Hf. cbn [onMessage]. unfold storage_get.
  destruct (storageFault env); try (now contradiction Hf); reflexivity.
Qed.

Lemma getRecentChats_reply (URL_hostname : string -> option string)
    (env : Env) (w : World) :
  storageFault env <> GetRejects ->
  snd (onMessage URL_hostname env GetRecentChats w)
  = Some (RecentChatsReply (stored_chats w)).
Proof.
  intros Hf. cbn [onMessage]. unfold storage_get.
  destruct (storageFault env); try (now contradiction Hf); reflexivity.
Qed.

Lemma stored_blacklist_after_add_listed
    (URL_hostname : string -> option string) (env : Env) (d : string)
    (w : World) :
  array_includes d (stored_blacklist w) = true ->
  stored_blacklist (fst (onMessage URL_hostname env (AddToBlacklist d) w))
  = stored_blacklist w.
Proof.
  intros Hi. unfold onMessage, addToBlacklist, storage_get.
  unfold stored_blacklist in Hi.
  destruct (storageFault env); cbn [fst detach]; try reflexivity;
    rewrite Hi; reflexivity.
Qed.

(** X12: after an accepted addToBlacklist(d), getBlacklist answers with
    a list that holds d; after an accepted removeFromBlacklist(d), with a
    list that does not; in both the other domains are listed exactly as
    before. *)
Theorem blacklist_requests_read_back (URL_hostname : string -> option string)
    (env1 env2 : Env) (d : string) (w : World) :
  storageFault env1 = NoFault ->
  storageFault env2 <> GetRejects ->
  (exists l,
      snd (onMessage URL_hostname env2 GetBlacklist
             (fst (onMessage URL_hostname env1 (AddToBlacklist d) w)))
      = Some (BlacklistReply l)
      /\ In d l
      /\ (forall x, x <> d -> (In x l <-> In x (stored_blacklist w))))
  /\ (exists l,
        snd (onMessage URL_hostname env2 GetBlacklist
               (fst (onMessage URL_hostname env1 (RemoveFromBlacklist d) w)))
        = Some (BlacklistReply l)
        /\ ~ In d l
        /\ (forall x, x <> d -> (In x l <-> In x (stored_blacklist w)))).
Proof.
  intros Hf1 Hf2. split.
  - eexists. split; [apply getBlacklist_reply, Hf2|].
    destruct (array_includes d (stored_blacklist w)) eqn:Hi.
    + rewrite (stored_blacklist_after_add_listed _ _ _ _ Hi).
      split; [now apply array_includes_In | tauto].
    + rewrite (stored_blacklist_after_add _ _ _ _ Hf1 Hi). split.
      * apply in_or_app. right. now left.
      * intros x Hx. rewrite in_app_iff. simpl. split; [|tauto].
        intros [H|[H|[]]]; [assumption | congruence].
  - eexists. split; [apply getBlacklist_reply, Hf2|].
    destruct (stored_blacklist_after_remove URL_hostname env1 d w Hf1)
      as [Hs _].
    rewrite Hs. split.
    + intros Hin. apply filter_In in Hin. destruct Hin as [_ Hin].
      now rewrite String.eqb_refl in Hin.
    + intros x Hx. rewrite filter_In. split; [tauto|].
      intros Hin. split; [assumption|].
      now apply negb_true_iff, String.eqb_neq.
Qed.

Lemma blacklist_requests_read_back_witness :
  exists l,
    snd (onMessage https_hostname sample_env GetBlacklist
           (fst (onMessage https_hostname sample_env
                   (AddToBlacklist "example.com") initial_world)))
    = Some (BlacklistReply l)
    /\ In "example.com" l.
Proof.
  destruct (blacklist_requests_read_back
              https_hostname sample_env sample_env "example.com" initial_world
              eq_refl ltac:(discriminate))
    as [(l & Hl & Hin & _) _].
  exists l. split; assumption.
Defined.

(** X13: after an accepted addToRecentChats, getRecentChats answers
    with the new entry (the fields of the request and the time of the call)
    at the front and no other entry for that domain; after an accepted
    removeFromRecentChats(d), with no entry for d and the other entries as
    before. *)
Theorem recent_chat_requests_read_back (URL_hostname : string -> option string)
    (env1 env2 : Env) (d a : string) (p : option string) (n : option Z)
    (c : option string) (w : World) :
  storageFault env1 = NoFault ->
  storageFault env2 <> GetRejects ->
  (exists older,
      snd (onMessage URL_hostname env2 GetRecentChats
             (fst (onMessage URL_hostname env1 (AddToRecentChats d a p n c) w)))
      = Some (RecentChatsReply (mkRecentChat d a p n c (clock env1) :: older))
      /\ ~ In d (map chat_domain older))
  /\ (exists l,
        snd (onMessage URL_hostname env2 GetRecentChats
               (fst (onMessage URL_hostname env1 (RemoveFromRecentChats d) w)))
        = Some (RecentChatsReply l)
        /\ ~ In d (map chat_domain l)
        /\ (forall x, chat_domain x <> d ->
              (In x l <-> In x (stored_chats w)))).
Proof.
  intros Hf1 Hf2. split.
  - exists (firstn 9 (filter (other_domain d) (stored_chats w))). split.
    + rewrite (getRecentChats_reply _ _ _ Hf2).
      pose proof (stored_chats_after_add URL_hostname
                    (mkAddCall env1 d a p n c) w Hf1) as Ha.
      unfold request_of, entry_of in Ha.
      cbn [call_domain call_ethAddress call_price call_decimals call_currency
           call_env] in Ha.
      now rewrite Ha, firstn_cons.
    + intros Hin. apply in_map_firstn in Hin.
      now apply filter_other_domain_not_in in Hin.
  - eexists. split; [apply getRecentChats_reply, Hf2|].
    rewrite (stored_chats_after_removal _ _ _ _ Hf1). split.
    + apply filter_other_domain_not_in.
    + intros x Hx. rewrite filter_In. split; [tauto|].
      intros Hin. split; [assumption|].
      unfold other_domain. now apply negb_true_iff, String.eqb_neq.
Qed.

Lemma recent_chat_requests_read_back_witness :
  exists older,
    snd (onMessage https_hostname sample_env GetRecentChats
           (fst (onMessage https_hostname sample_env
                   (AddToRecentChats "example.com" "0xabc" None None None)
                   initial_world)))
    = Some (RecentChatsReply
              (mkRecentChat "example.com" "0xabc" None None None 1000 :: older)).
Proof.
  destruct (recent_chat_requests_read_back
              https_hostname sample_env sample_env "example.com" "0xabc"
              None None None initial_world eq_refl ltac:(discriminate))
    as [(older & Hl & _) _].
  exists older. exact Hl.
Defined.

(** ** Owner identifiers, in general *)

Lemma split_nonempty (sep : ascii) (s : string) : split sep s <> [].
Proof.
  destruct s as [|c r]; cbn [split]; [discriminate|].
  destruct (Ascii.eqb c sep); [discriminate|].
  destruct (split sep r); discriminate.
Qed.

Lemma split_length (sep : ascii) (s : string) :
  length (split sep s) = S (count_char sep s).
Proof.
  induction s as [|c r IH]; [reflexivity|].
  cbn [split count_char]. destruct (Ascii.eqb c sep).
  - cbn [length]. now rewrite IH.
  - destruct (split sep r) as [|p ps] eqn:E; [now destruct (split_nonempty sep r)|].
    cbn [length] in *. lia.
Qed.

Lemma concat_split (sep : ascii) (s : string) :
  String.concat (String sep "") (split sep s) = s.
Proof.
  induction s as [|c r IH]; [reflexivity|].
  cbn [split]. destruct (Ascii.eqb_spec c sep) as [E|E].
  - subst c. destruct (split sep r) as [|p ps] eqn:Es;
      [now destruct (split_nonempty sep r)|].
    change (String.concat (String sep "") ("" :: p :: ps))
      with (String sep (String.concat (String sep "") (p :: ps))).
    now rewrite IH.
  - destruct (split sep r) as [|p [|q ps]] eqn:Es;
      [now destruct (split_nonempty sep r)| |].
    + cbn [String.concat] in *. now rewrite IH.
    + change (String.concat (String sep "") (String c p :: q :: ps))
        with (String c (String.concat (String sep "") (p :: q :: ps))).
      now rewrite IH.
Qed.

Lemma split_concat (sep : ascii) (parts : list string) :
  parts <> [] ->
  Forall (fun p => ~ In sep (list_ascii_of_string p)) parts ->
  split sep (String.concat (String sep "") parts) = parts.
Proof.
  induction parts as [|p rest IH]; intros Hne Hall; [contradiction|].
  inversion Hall as [|? ? Hp Hrest]; subst.
  destruct rest as [|q rest].
  - cbn [String.concat]. now apply split_no_separator.
  - change (String.concat (String sep "") (p :: q :: rest))
      with (p ++ String sep (String.concat (String sep "") (q :: rest))).
    rewrite (split_at_separator _ _ _ Hp). f_equal.
    apply IH; [discriminate | assumption].
Qed.

(** X14: [parseCAIP10] always gives a namespace; it gives no address
    exactly when the input holds fewer than two colons; and for segments
    free of colons joined by colons it gives the first three segments, any
    further segment being ignored. *)
Theorem parseCAIP10_segments (input : string) (parts : list string) :
  namespace (parseCAIP10 input) <> None
  /\ (address (parseCAIP10 input) = None <-> count_char ":" input < 2)
  /\ (parts <> [] ->
      Forall (fun p => ~ In ":"%char (list_ascii_of_string p)) parts ->
      parseCAIP10 (String.concat ":" parts)
      = mkCAIP10 (nth_error parts 0) (nth_error parts 1) (nth_error parts 2)).
Proof.
  unfold parseCAIP10. cbn [namespace address]. split; [|split].
  - destruct (split ":" input) eqn:E; [now destruct (split_nonempty ":" input)|].
    discriminate.
  - rewrite nth_error_None, split_length. lia.
  - intros Hne Hall. now rewrite (split_concat ":" parts Hne Hall).
Qed.

Lemma parseCAIP10_segments_witness :
  parseCAIP10 (String.concat ":" ["eip155"; "1"; "0xabc"; "extra"])
  = mkCAIP10 (Some "eip155") (Some "1") (Some "0xabc").
Proof.
  destruct (parseCAIP10_segments "" ["eip155"; "1"; "0xabc"; "extra"])
    as (_ & _ & H).
  apply H; [discriminate|].
  repeat constructor; simpl;
    intros H0; repeat (destruct H0 as [H0|H0]; [discriminate H0|]); exact H0.
Defined.

(** ** Extracted domains *)

Lemma lower_char_idempotent (c : ascii) :
  lower_char (lower_char c) = lower_char c.
Proof.
  destruct c as [[] [] [] [] [] [] [] []]; reflexivity.
Qed.

Lemma toLowerCase_idempotent (s : string) :
  toLowerCase (toLowerCase s) = toLowerCase s.
Proof.
  induction s as [|c r IH]; [reflexivity|].
  cbn [toLowerCase]. now rewrite lower_char_idempotent, IH.
Qed.

Lemma toLowerCase_substring_from (n : nat) (s : string) :
  toLowerCase (substring_from n s) = substring_from n (toLowerCase s).
Proof.
  revert s. induction n as [|n IH]; intros s; [reflexivity|].
  destruct s as [|c r]; [reflexivity|]. cbn [substring_from toLowerCase].
  apply IH.
Qed.

Lemma startsWith_www (h : string) :
  startsWith "www." h = true -> h = "www." ++ substring_from 4 h.
Proof.
  intros H. pose proof (strip_one_www_startsWith h) as Hs. rewrite H in Hs.
  destruct h as [|a h]; [discriminate|].
  destruct a as [[] [] [] [] [] [] [] []]; try discriminate.
  destruct h as [|a h]; [discriminate|].
  destruct a as [[] [] [] [] [] [] [] []]; try discriminate.
  destruct h as [|a h]; [discriminate|].
  destruct a as [[] [] [] [] [] [] [] []]; try discriminate.
  destruct h as [|a h]; [discriminate|].
  destruct a as [[] [] [] [] [] [] [] []]; try discriminate.
  reflexivity.
Qed.

(** X15: a domain given by [extractDomain] is in lower case, holds a dot
    and at least three characters, and is the lower-cased hostname of the
    URL, or that hostname without its leading "www.". *)
Theorem extracted_domain_is_normalized
    (URL_hostname : string -> option string) (url : option string)
    (d : string) :
  extractDomain URL_hostname url = Some d ->
  toLowerCase d = d
  /\ valid_domain d
  /\ exists u host,
       url = Some u /\ u <> "" /\ URL_hostname u = Some host
       /\ (toLowerCase host = d \/ toLowerCase host = "www." ++ d).
Proof.
  unfold extractDomain. destruct (truthy url) eqn:Ht; cbn [negb];
    [|discriminate].
  destruct url as [u|]; [|discriminate].
  destruct (URL_hostname u) as [host|] eqn:Hh; [|discriminate].
  cbv zeta.
  set (h := if startsWith "www." (toLowerCase host)
            then substring_from 4 (toLowerCase host) else toLowerCase host).
  destruct (negb (includes "." h) || (String.length h <? 3)%nat) eqn:E;
    [discriminate|].
  intros H. injection H as <-. split; [|split].
  - unfold h. destruct (startsWith "www." (toLowerCase host)).
    + now rewrite toLowerCase_substring_from, toLowerCase_idempotent.
    + apply toLowerCase_idempotent.
  - now apply valid_domain_dec.
  - exists u, host. split; [reflexivity|]. split.
    + unfold truthy in Ht. now apply negb_true_iff, String.eqb_neq in Ht.
    + split; [exact Hh|]. unfold h.
      destruct (startsWith "www." (toLowerCase host)) eqn:Hw.
      * right. now apply startsWith_www.
      * now left.
Qed.

Lemma extracted_domain_is_normalized_witness :
  toLowerCase "example.com" = "example.com" /\ valid_domain "example.com".
Proof.
  destruct (extracted_domain_is_normalized
              https_hostname (Some "https://www.Example.com/") "example.com"
              eq_refl)
    as (H1 & H2 & _).
  split; assumption.
Defined.

(** ** Popup: the display of an address *)

Lemma string_length_append (a b : string) :
  String.length (a ++ b) = String.length a + String.length b.
Proof.
  induction a as [|c a IH]; [reflexivity|]. cbn [append String.length].
  now rewrite IH.
Qed.

Lemma substring_prefix (a b : string) :
  String.substring 0 (String.length a) (a ++ b) = a.
Proof.
  induction a as [|c a IH]; [now destruct b|].
  cbn [append String.length String.substring]. now rewrite IH.
Qed.

Lemma substring_skip (a b : string) (k m : nat) :
  String.substring (String.length a + k) m (a ++ b) = String.substring k m b.
Proof.
  induction a as [|c a IH]; [reflexivity|].
  cbn [append String.length Nat.add String.substring]. exact IH.
Qed.

Lemma substring_all (s : string) :
  String.substring 0 (String.length s) s = s.
Proof.
  induction s as [|c s IH]; [reflexivity|].
  cbn [String.length String.substring]. now rewrite IH.
Qed.

Lemma string_split_at (n : nat) (s : string) :
  n <= String.length s ->
  exists a b, s = a ++ b /\ String.length a = n.
Proof.
  revert s. induction n as [|n IH]; intros s Hn.
  - exists "", s. now split.
  - destruct s as [|c s]; [simpl in Hn; lia|].
    cbn [String.length] in Hn. destruct (IH s) as (a & b & -> & Ha); [lia|].
    exists (String c a), b. cbn [append String.length]. now rewrite Ha.
Qed.

(** X16: the address shown by the popup is never longer than thirteen
    characters: an address shorter than ten characters is shown as it is, a
    longer one as its first six characters, three dots and its last four
    characters. *)
Theorem formatAddress_keeps_both_ends (a : string) :
  String.length (Popup.formatAddress (Some a)) <= 13
  /\ (String.length a < 10 -> Popup.formatAddress (Some a) = a)
  /\ (10 <= String.length a ->
      exists head middle tail,
        a = head ++ middle ++ tail
        /\ String.length head = 6
        /\ String.length tail = 4
        /\ Popup.formatAddress (Some a) = head ++ "..." ++ tail).
Proof.
  assert (Hshort : String.length a < 10 -> Popup.formatAddress (Some a) = a).
  { intros Hl. unfold Popup.formatAddress. destruct a as [|c a]; [reflexivity|].
    cbn [truthy String.eqb negb].
    apply Nat.ltb_lt in Hl. now rewrite Hl. }
  assert (Hlong : 10 <= String.length a ->
      exists head middle tail,
        a = head ++ middle ++ tail
        /\ String.length head = 6
        /\ String.length tail = 4
        /\ Popup.formatAddress (Some a) = head ++ "..." ++ tail).
  { intros Hl.
    destruct (string_split_at 6 a) as (head & rest & Ha & Hh); [lia|].
    assert (Hr : 4 <= String.length rest).
    { rewrite Ha, string_length_append in Hl. lia. }
    destruct (string_split_at (String.length rest - 4) rest)
      as (middle & tail & Hrest & Hm); [lia|].
    assert (Ht : String.length tail = 4).
    { rewrite Hrest, string_length_append in Hr.
      rewrite Hrest, string_length_append in Hm. lia. }
    exists head, middle, tail. subst rest. split; [exact Ha|].
    split; [exact Hh|]. split; [exact Ht|].
    unfold Popup.formatAddress.
    assert (Hne : truthy (Some a) = true).
    { apply truthy_nonempty. intros E. rewrite E in Hl. simpl in Hl. lia. }
    rewrite Hne. cbn [negb].
    assert (Hlt : (String.length a <? 10)%nat = false) by now apply Nat.ltb_ge.
    rewrite Hlt. unfold Popup.slice.
    assert (Hlen : String.length a = 6 + String.length middle + 4).
    { rewrite Ha, !string_length_append. lia. }
    replace (0 <? 0)%Z with false by reflexivity.
    replace (6 <? 0)%Z with false by reflexivity.
    replace (-4 <? 0)%Z with true by reflexivity.
    replace (Z.to_nat (Z.min 0 (Z.of_nat (String.length a)))) with 0 by lia.
    replace (Z.to_nat (Z.min 6 (Z.of_nat (String.length a))
                       - Z.min 0 (Z.of_nat (String.length a))))
      with (String.length head) by lia.
    replace (Z.to_nat (Z.max (Z.of_nat (String.length a) + -4) 0))
      with (String.length head + (String.length middle + 0)) by lia.
    replace (Z.to_nat (Z.of_nat (String.length a)
                       - Z.max (Z.of_nat (String.length a) + -4) 0))
      with (String.length tail) by lia.
    rewrite Ha at 1 2.
    rewrite substring_prefix, substring_skip, substring_skip, substring_all.
    reflexivity. }
  split; [|split; assumption].
  destruct (Nat.lt_ge_cases (String.length a) 10) as [Hl|Hl].
  - rewrite (Hshort Hl). lia.
  - destruct (Hlong Hl) as (head & middle & tail & _ & Hh & Ht & ->).
    rewrite !string_length_append. simpl. lia.
Qed.

Lemma formatAddress_keeps_both_ends_witness :
  Popup.formatAddress (Some "0xabc") = "0xabc"
  /\ exists head middle tail,
       "0x1234567890abcdef" = head ++ middle ++ tail
       /\ String.length head = 6
       /\ String.length tail = 4
       /\ Popup.formatAddress (Some "0x1234567890abcdef")
          = head ++ "..." ++ tail.
Proof.
  split.
  - destruct (formatAddress_keeps_both_ends "0xabc") as (_ & H & _).
    apply H. simpl. lia.
  - destruct (formatAddress_keeps_both_ends "0x1234567890abcdef")
      as (_ & _ & H).
    apply H. simpl. lia.
Defined.

(** ** The badge and the blacklist *)

Lemma settle_marker (tab : Tab) (domain : string) (show : bool)
    (reply : FetchResult) (w : World) (newer : list Effect) (i : Z) :
  effects (handleTabUpdate_settle tab domain show reply w)
  = (newer ++ effects w)%list ->
  In (SetBadgeText i "●") newer ->
  tab_id tab = Some i
  /\ truthy (ethAddress (handleTabUpdate_settle tab domain show reply w)) = true.
Proof.
  unfold handleTabUpdate_settle, clearBadge.
  assert (Hnil : effects w = (newer ++ effects w)%list ->
                 In (SetBadgeText i "●") newer -> False).
  { intros H Hin. change (effects w) with ([] ++ effects w)%list in H at 1.
    apply app_inv_tail in H. subst newer. contradiction. }
  assert (Hclear : forall j : Z,
            SetBadgeText j "" :: effects w = (newer ++ effects w)%list ->
            In (SetBadgeText i "●") newer -> False).
  { intros j H Hin.
    change (SetBadgeText j "" :: effects w)
      with ([SetBadgeText j ""] ++ effects w)%list in H.
    apply app_inv_tail in H. subst newer.
    destruct Hin as [Hin|[]]. discriminate Hin. }
  destruct (resolveNameAddress reply) as [nameData|];
    [|intros H Hin; now destruct (Hnil H Hin)].
  destruct (claimedBy nameData) as [owner|].
  2:{ destruct (tab_id tab) as [j|]; [destruct (truthy_id (Some j))|];
        cbn [effects emit clear_owner set_owner]; intros H Hin;
        solve [now destruct (Hnil H Hin) | now destruct (Hclear j H Hin)]. }
  cbv zeta. destruct (tab_id tab) as [j|];
    [|cbn [effects set_owner]; intros H Hin; now destruct (Hnil H Hin)].
  cbn [ethAddress set_owner].
  destruct (truthy (address (parseCAIP10 owner))) eqn:Ht;
    destruct (truthy_id (Some j)) eqn:Hj; cbn [andb];
    try (cbn [effects emit set_owner]; intros H Hin;
         solve [now destruct (Hnil H Hin) | now destruct (Hclear j H Hin)]).
  destruct show; cbn [effects emit set_owner ethAddress]; intros H Hin.
  - change (PopupTimer domain :: SetBadgeBackgroundColor j "#10B981"
              :: SetBadgeText j "●" :: effects w)
      with ([PopupTimer domain; SetBadgeBackgroundColor j "#10B981";
             SetBadgeText j "●"] ++ effects w)%list in H.
    apply app_inv_tail in H. subst newer.
    destruct Hin as [Hin|[Hin|[Hin|[]]]]; try discriminate Hin.
    injection Hin as ->. now split.
  - change (SetBadgeBackgroundColor j "#10B981"
              :: SetBadgeText j "●" :: effects w)
      with ([SetBadgeBackgroundColor j "#10B981";
             SetBadgeText j "●"] ++ effects w)%list in H.
    apply app_inv_tail in H. subst newer.
    destruct Hin as [Hin|[Hin|[]]]; try discriminate Hin.
    injection Hin as ->. now split.
Qed.

(** X17: the active marker is put on a badge only by a run that sent a
    request for the domain of the tab, only on the tab that was updated, and
    only with a stored address that is not empty. *)
Theorem active_marker_needs_owner (URL_hostname : string -> option string)
    (env : Env) (tab : Tab) (w : World) (newer : list Effect) (i : Z) :
  effects (handleTabUpdate URL_hostname env tab w) = (newer ++ effects w)%list ->
  In (SetBadgeText i "●") newer ->
  tab_id tab = Some i
  /\ truthy (ethAddress (handleTabUpdate URL_hostname env tab w)) = true
  /\ exists d, extractDomain URL_hostname (tab_url tab) = Some d
               /\ In (Fetch d) newer.
Proof.
  unfold handleTabUpdate, handleTabUpdate_begin, handleTabUpdate_request.
  assert (Hnil : effects w = (newer ++ effects w)%list ->
                 In (SetBadgeText i "●") newer -> False).
  { intros H Hin. change (effects w) with ([] ++ effects w)%list in H at 1.
    apply app_inv_tail in H. subst newer. contradiction. }
  assert (Hclear : forall w0 : World, effects w0 = effects w ->
    effects (if truthy_id (tab_id tab)
             then clear_owner (clearBadge tab w0) else w0)
    = (newer ++ effects w)%list ->
    In (SetBadgeText i "●") newer -> False).
  { intros w0 H0. unfold clearBadge.
    destruct (tab_id tab) as [j|]; [destruct (truthy_id (Some j))|];
      cbn [effects clear_owner set_owner emit truthy_id]; rewrite H0;
      try exact Hnil.
    intros H Hin.
    change (SetBadgeText j "" :: effects w)
      with ([SetBadgeText j ""] ++ effects w)%list in H.
    apply app_inv_tail in H. subst newer.
    destruct Hin as [Hin|[]]. discriminate Hin. }
  destruct (isExtensionEnabled w); cbn [negb];
    [|intros H Hin; now destruct (Hnil H Hin)].
  destruct (strict_eq _ _); [intros H Hin; now destruct (Hnil H Hin)|].
  destruct (extractDomain URL_hostname (tab_url tab)) as [d|];
    [|intros H Hin; now destruct (Hclear (set_currentDomain None w) eq_refl H Hin)].
  destruct (truthy (Some d) && _);
    [|intros H Hin;
      now destruct (Hclear (set_currentDomain (Some d) w) eq_refl H Hin)].
  intros H Hin.
  match type of H with
  | effects (handleTabUpdate_settle ?t ?dd ?s ?r ?w0) = _ =>
      destruct (settle_effects t dd s r w0) as (_ & newer0 & Hn0 & _);
      pose proof (settle_marker t dd s r w0 newer0 i Hn0) as Hm
  end.
  rewrite Hn0 in H. cbn [effects emit set_currentDomain] in H.
  change (newer0 ++ Fetch d :: effects w)%list
    with (newer0 ++ [Fetch d] ++ effects w)%list in H.
  rewrite app_assoc in H. apply app_inv_tail in H. subst newer.
  apply in_app_or in Hin. destruct Hin as [Hin|[Hin|[]]];
    [|discriminate Hin].
  destruct (Hm Hin) as [Hi Ht]. split; [exact Hi|]. split; [exact Ht|].
  exists d. split; [reflexivity|]. apply in_or_app. right. now left.
Qed.

Lemma active_marker_needs_owner_witness :
  tab_id tab_example = Some 7%Z /\ truthy (ethAddress on_example) = true.
Proof.
  destruct (active_marker_needs_owner
              https_hostname sample_env tab_example initial_world
              [PopupTimer "example.com"; SetBadgeBackgroundColor 7 "#10B981";
               SetBadgeText 7 "●"; Fetch "example.com"] 7%Z eq_refl)
    as (H1 & H2 & _).
  - simpl. tauto.
  - split; assumption.
Defined.

(** X18: blacklisting the domain of the active tab (not blacklisted
    before, the tab having an id) takes effect at once: the owner variables
    are cleared, the badge of the tab is cleared, the domain is in the
    cached blacklist, and no later tab update for that domain sends a
    request. *)
Theorem blacklisting_active_domain_takes_effect
    (URL_hostname : string -> option string) (env : Env) (d : string)
    (tab : Tab) (w : World) :
  storageFault env = NoFault ->
  array_includes d (stored_blacklist w) = false ->
  activeTab env = Some tab ->
  truthy_id (tab_id tab) = true ->
  extractDomain URL_hostname (tab_url tab) = Some d ->
  let w' := fst (onMessage URL_hostname env (AddToBlacklist d) w) in
  ethAddress w' = None /\ price w' = None
  /\ decimals w' = None /\ currency w' = None
  /\ (forall i, tab_id tab = Some i -> badgeText i (effects w') = Some "")
  /\ array_includes d (cachedBlacklistedDomains w') = true
  /\ (forall (env2 : Env) (tab2 : Tab),
        extractDomain URL_hostname (tab_url tab2) = Some d ->
        filter is_fetch (effects (handleTabUpdate URL_hostname env2 tab2 w'))
        = filter is_fetch (effects w')).
Proof.
  intros Hf Hn Ha Hi Hx w'.
  assert (Hw : w' = clear_owner
                 (clearBadge tab
                    (set_cache (stored_blacklist w ++ [d])%list
                       (set_storage
                          (write_blacklistedDomains
                             (stored_blacklist w ++ [d])%list (storage w))
                          w)))).
  { unfold w', onMessage, addToBlacklist, storage_get, storage_set.
    rewrite Hf. unfold stored_blacklist in Hn. rewrite Hn. cbn [negb].
    rewrite Ha, Hi, Hx.
    replace (strict_eq (Some d) (Some d)) with true
      by (symmetry; now apply strict_eq_spec).
    reflexivity. }
  assert (Hc : array_includes d (cachedBlacklistedDomains w') = true).
  { rewrite Hw. unfold clearBadge. destruct (tab_id tab) as [j|];
      [destruct (truthy_id (Some j))|];
      cbn [cachedBlacklistedDomains clear_owner set_owner emit set_cache];
      apply array_includes_In, in_or_app; right; now left. }
  split; [now rewrite Hw|]. split; [now rewrite Hw|].
  split; [now rewrite Hw|]. split; [now rewrite Hw|]. split; [|split].
  - intros i Hti. rewrite Hw. unfold clearBadge. rewrite Hti.
    rewrite Hti in Hi. rewrite Hi.
    cbn [effects clear_owner set_owner emit badgeText].
    now rewrite Z.eqb_refl.
  - exact Hc.
  - intros env2 tab2 Hx2.
    destruct (handleTabUpdate_effects URL_hostname env2 tab2 w')
      as (newer & Hn2 & _ & Hfetch & _).
    rewrite Hn2, filter_app.
    replace (filter is_fetch newer) with (@nil Effect); [reflexivity|].
    symmetry. apply filter_all_pass_none. intros e He.
    destruct e; try reflexivity. exfalso.
    destruct (Hfetch domain He) as (_ & Hd & _ & Hnc).
    rewrite Hx2 in Hd. injection Hd as ->. congruence.
Qed.

Lemma blacklisting_active_domain_takes_effect_witness :
  ethAddress (fst (onMessage https_hostname sample_env
                     (AddToBlacklist "example.com") on_example)) = None
  /\ badgeText 7 (effects (fst (onMessage https_hostname sample_env
                                   (AddToBlacklist "example.com") on_example)))
     = Some "".
Proof.
  destruct (blacklisting_active_domain_takes_effect
              https_hostname sample_env "example.com" tab_example on_example
              eq_refl eq_refl eq_refl eq_refl eq_refl)
    as (H1 & _ & _ & _ & H5 & _).
  split; [exact H1 | now apply H5].
Defined.

(** ** Settings: the test of a domain typed by the user *)

Lemma append_empty_r (s : string) : s ++ "" = s.
Proof.
  induction s as [|c s IH]; [reflexivity|]. cbn [append]. now rewrite IH.
Qed.

Lemma append_associative (a b c : string) : (a ++ b) ++ c = a ++ (b ++ c).
Proof.
  induction a as [|x a IH]; [reflexivity|]. cbn [append]. now rewrite IH.
Qed.

Lemma append_is_empty (a b : string) : a ++ b = "" -> a = "" /\ b = "".
Proof.
  destruct a; [now split | discriminate].
Qed.

Lemma append_is_cons (a b s : string) (c : ascii) :
  a ++ b = String c s ->
  (a = "" /\ b = String c s) \/ (exists a', a = String c a' /\ s = a' ++ b).
Proof.
  destruct a as [|x a]; cbn [append]; intros H; [now left|].
  right. injection H as -> <-. now exists a.
Qed.

Import Regex.

Lemma matches_void (s : string) : ~ Matches Void s.
Proof. intros H. inversion H. Qed.

Lemma matches_eps (s : string) : Matches Eps s <-> s = "".
Proof.
  split; [intros H; now inversion H | intros ->; constructor].
Qed.

Lemma matches_class (p : ascii -> bool) (s : string) :
  Matches (Class p) s <-> exists c, s = String c "" /\ p c = true.
Proof.
  split.
  - intros H. inversion H; subst. eauto.
  - intros (c & -> & Hp). now constructor.
Qed.

Lemma matches_cat (a b : re) (s : string) :
  Matches (Cat a b) s
  <-> exists s1 s2, s = s1 ++ s2 /\ Matches a s1 /\ Matches b s2.
Proof.
  split.
  - intros H. inversion H; subst. eauto.
  - intros (s1 & s2 & -> & H1 & H2). now constructor.
Qed.

Lemma matches_alt (a b : re) (s : string) :
  Matches (Alt a b) s <-> Matches a s \/ Matches b s.
Proof.
  split.
  - intros H. inversion H; subst; tauto.
  - intros [H|H]; [now apply MAltL | now apply MAltR].
Qed.

Lemma nullable_spec (r : re) : nullable r = true <-> Matches r "".
Proof.
  induction r as [| |p|a IHa b IHb|a IHa b IHb|a IHa]; cbn [nullable].
  - split; [discriminate | intros H; now apply matches_void in H].
  - split; [constructor | reflexivity].
  - rewrite matches_class. split; [discriminate|].
    intros (c & H & _). discriminate H.
  - rewrite matches_cat. split.
    + destruct (nullable a); [|discriminate]. intros Hb.
      exists "", "". split; [reflexivity|]. split; [now apply IHa | now apply IHb].
    + intros (s1 & s2 & Heq & H1 & H2). symmetry in Heq.
      apply append_is_empty in Heq. destruct Heq as [-> ->].
      apply IHa in H1. apply IHb in H2. now rewrite H1.
  - rewrite matches_alt, <- IHa, <- IHb.
    destruct (nullable a); split; try tauto. intros [H|H]; [discriminate | exact H].
  - split; [constructor | reflexivity].
Qed.

Lemma star_cons (a : re) (c : ascii) (s : string) :
  Matches (Star a) (String c s) ->
  exists s1 s2,
    s = s1 ++ s2 /\ Matches a (String c s1) /\ Matches (Star a) s2.
Proof.
  intros H. remember (Star a) as r eqn:Hr. remember (String c s) as t eqn:Ht.
  revert s Ht.
  induction H as [| | | | | |a' s1 s2 H1 _ H2 IH2]; intros rest Ht;
    try discriminate.
  injection Hr as ->.
  apply append_is_cons in Ht. destruct Ht as [[-> ->]|(s1' & -> & ->)].
  - now apply IH2.
  - now exists s1', s2.
Qed.

Lemma deriv_spec (r : re) (c : ascii) (s : string) :
  Matches (deriv c r) s <-> Matches r (String c s).
Proof.
  revert s. induction r as [| |p|a IHa b IHb|a IHa b IHb|a IHa];
    intros s; cbn [deriv].
  - split; intros H; now apply matches_void in H.
  - rewrite matches_eps. split; [intros H; now apply matches_void in H|].
    discriminate.
  - rewrite matches_class. split.
    + destruct (p c) eqn:Hp; intros H;
        [|now apply matches_void in H].
      apply matches_eps in H. subst s. now exists c.
    + intros (c' & Heq & Hp). injection Heq as -> ->. rewrite Hp. constructor.
  - assert (Hcat : forall s0, Matches (Cat (deriv c a) b) s0 ->
                              Matches (Cat a b) (String c s0)).
    { intros s0 H. apply matches_cat in H.
      destruct H as (s1 & s2 & -> & H1 & H2).
      change (String c (s1 ++ s2)) with (String c s1 ++ s2).
      constructor; [now apply IHa | assumption]. }
    split.
    + destruct (nullable a) eqn:Hn; [|apply Hcat].
      intros H. apply matches_alt in H. destruct H as [H|H];
        [now apply Hcat|].
      change (String c s) with ("" ++ String c s).
      constructor; [now apply nullable_spec | now apply IHb].
    + intros H. apply matches_cat in H.
      destruct H as (s1 & s2 & Heq & H1 & H2). symmetry in Heq.
      apply append_is_cons in Heq.
      destruct Heq as [[-> ->]|(s1' & -> & ->)].
      * apply nullable_spec in H1. rewrite H1. apply MAltR. now apply IHb.
      * assert (Hc : Matches (Cat (deriv c a) b) (s1' ++ s2))
          by (constructor; [now apply IHa | assumption]).
        destruct (nullable a); [now apply MAltL | assumption].
  - rewrite !matches_alt, IHa, IHb. tauto.
  - split.
    + intros H. apply matches_cat in H.
      destruct H as (s1 & s2 & -> & H1 & H2).
      change (String c (s1 ++ s2)) with (String c s1 ++ s2).
      constructor; [now apply IHa | assumption].
    + intros H. apply star_cons in H. destruct H as (s1 & s2 & -> & H1 & H2).
      constructor; [now apply IHa | assumption].
Qed.

Lemma test_spec (r : re) (s : string) : test r s = true <-> Matches r s.
Proof.
  revert r. induction s as [|c s IH]; intros r; cbn [test].
  - apply nullable_spec.
  - rewrite IH. apply deriv_spec.
Qed.

Lemma matches_upto (p : ascii -> bool) (n : nat) (s : string) :
  Matches (upto n (Class p)) s
  <-> String.length s <= n /\ forallb p (list_ascii_of_string s) = true.
Proof.
  revert s. induction n as [|n IH]; intros s; cbn [upto].
  - rewrite matches_eps. split.
    + intros ->. now split.
    + intros [Hl _]. destruct s; [reflexivity | simpl in Hl; lia].
  - rewrite matches_alt, matches_eps, matches_cat. split.
    + intros [->|(s1 & s2 & -> & H1 & H2)].
      * split; [simpl; lia | reflexivity].
      * apply matches_class in H1. destruct H1 as (c & -> & Hc).
        apply IH in H2. destruct H2 as [Hl Hf].
        cbn [append String.length list_ascii_of_string forallb].
        split; [lia|]. apply andb_true_iff. now split.
    + intros [Hl Hf]. destruct s as [|c s]; [now left|]. right.
      cbn [String.length list_ascii_of_string forallb] in Hl, Hf.
      apply andb_true_iff in Hf. destruct Hf as [Hc Hf].
      exists (String c ""), s. split; [reflexivity|].
      split; [now constructor|]. apply IH. split; [lia | assumption].
Qed.


Import Settings.

Lemma list_ascii_of_string_append (a b : string) :
  list_ascii_of_string (a ++ b)
  = (list_ascii_of_string a ++ list_ascii_of_string b)%list.
Proof.
  induction a as [|c a IH]; [reflexivity|].
  cbn [append list_ascii_of_string app]. now rewrite IH.
Qed.

Lemma list_ascii_length (s : string) :
  length (list_ascii_of_string s) = String.length s.
Proof.
  induction s as [|c s IH]; [reflexivity|]. simpl. now rewrite IH.
Qed.

Lemma string_snoc (s : string) :
  s <> "" -> exists m b, s = m ++ String b "".
Proof.
  induction s as [|c s IH]; intros H; [contradiction|].
  destruct s as [|c' s'].
  - now exists "", c.
  - destruct IH as (m & b & Hm); [discriminate|].
    exists (String c m), b. cbn [append]. now rewrite <- Hm.
Qed.

(** The strings [label] stands for. *)
Lemma matches_label (s : string) : Matches label s <-> label_ok s = true.
Proof.
  assert (Hshape : Matches label s
    <-> exists a m b,
          s = String a (m ++ String b "")
          /\ is_alnum a = true /\ is_alnum b = true
          /\ String.length m <= 61
          /\ forallb is_alnum_or_hyphen (list_ascii_of_string m) = true).
  { unfold label. rewrite matches_cat. split.
    - intros (s1 & s2 & -> & H1 & H2).
      apply matches_class in H1. destruct H1 as (a & -> & Ha).
      apply matches_cat in H2. destruct H2 as (m & s3 & -> & Hm & H3).
      apply matches_class in H3. destruct H3 as (b & -> & Hb).
      apply matches_upto in Hm. destruct Hm as [Hl Hf].
      exists a, m, b. repeat split; assumption.
    - intros (a & m & b & -> & Ha & Hb & Hl & Hf).
      exists (String a ""), (m ++ String b ""). split; [reflexivity|].
      split; [now constructor|]. constructor.
      + apply matches_upto. now split.
      + now constructor. }
  rewrite Hshape. unfold label_ok. cbv zeta. split.
  - intros (a & m & b & -> & Ha & Hb & Hl & Hf).
    cbn [list_ascii_of_string]. rewrite list_ascii_of_string_append.
    cbn [list_ascii_of_string hd].
    change (a :: list_ascii_of_string m ++ [b])%list
      with ((a :: list_ascii_of_string m) ++ [b])%list.
    rewrite last_last, length_app. cbn [length].
    rewrite list_ascii_length.
    assert (Hall : forallb is_alnum_or_hyphen
                     ((a :: list_ascii_of_string m) ++ [b]) = true).
    { rewrite forallb_app. cbn [forallb]. rewrite Hf.
      unfold is_alnum_or_hyphen. now rewrite Ha, Hb. }
    rewrite Hall, Ha, Hb, !andb_true_r.
    apply andb_true_iff. split; apply Nat.leb_le; lia.
  - intros H. rewrite !andb_true_iff in H.
    destruct H as ((((Hlo & Hhi) & Hall) & Hfirst) & Hlast).
    apply Nat.leb_le in Hlo, Hhi.
    destruct s as [|a s]; [simpl in Hlo; lia|].
    destruct (string_snoc s) as (m & b & ->).
    { intros ->. simpl in Hlo. lia. }
    exists a, m, b. split; [reflexivity|].
    cbn [list_ascii_of_string hd] in *.
    rewrite list_ascii_of_string_append in *.
    cbn [list_ascii_of_string] in *.
    change (a :: list_ascii_of_string m ++ [b])%list
      with ((a :: list_ascii_of_string m) ++ [b])%list in Hlast.
    rewrite last_last in Hlast.
    cbn [forallb] in Hall. rewrite forallb_app in Hall.
    rewrite !andb_true_iff in Hall. destruct Hall as (_ & Hm & _).
    cbn [length] in Hhi. rewrite length_app, list_ascii_length in Hhi.
    cbn [length] in Hhi.
    repeat split; try assumption. lia.
Qed.

Lemma label_ok_no_dot (l : string) :
  label_ok l = true -> ~ In "."%char (list_ascii_of_string l).
Proof.
  unfold label_ok. cbv zeta. rewrite !andb_true_iff.
  intros ((((_ & _) & Hall) & _) & _) Hin.
  rewrite forallb_forall in Hall. apply Hall in Hin. discriminate Hin.
Qed.

(** The strings of the repeated group. *)
Lemma matches_groups (t : string) :
  Matches (Star (Cat (Class (Ascii.eqb ".")) label)) t
  <-> exists labels,
        Forall (fun l => label_ok l = true) labels /\ t = dotted labels.
Proof.
  split.
  - intros H.
    remember (Star (Cat (Class (Ascii.eqb ".")) label)) as r eqn:Hr.
    induction H as [| | | | | |a s1 s2 H1 _ H2 IH2]; try discriminate.
    + now exists [].
    + injection Hr as ->. destruct (IH2 eq_refl) as (labels & Hall & ->).
      apply matches_cat in H1. destruct H1 as (d & l & -> & Hd & Hl).
      apply matches_class in Hd. destruct Hd as (c & -> & Hc).
      apply Ascii.eqb_eq in Hc. subst c. apply matches_label in Hl.
      exists (l :: labels). split; [now constructor|].
      reflexivity.
  - intros (labels & Hall & ->).
    induction labels as [|l labels IH]; [constructor|].
    inversion Hall as [|? ? Hl Hrest]; subst.
    change (dotted (l :: labels)) with ("." ++ l ++ dotted labels).
    rewrite <- append_associative. constructor; [|now apply IH].
    constructor; [constructor; apply Ascii.eqb_refl | now apply matches_label].
Qed.

Lemma concat_dotted (l0 : string) (labels : list string) :
  String.concat "." (l0 :: labels) = l0 ++ dotted labels.
Proof.
  revert l0. induction labels as [|l labels IH]; intros l0.
  - cbn [String.concat dotted]. now rewrite append_empty_r.
  - change (String.concat "." (l0 :: l :: labels))
      with (l0 ++ "." ++ String.concat "." (l :: labels)).
    now rewrite IH.
Qed.

(** The strings [domainRegex] stands for. *)
Lemma matches_domainRegex (domain : string) :
  Matches domainRegex domain
  <-> forallb label_ok (split "." domain) = true.
Proof.
  unfold domainRegex. rewrite matches_cat, forallb_forall. split.
  - intros (l0 & t & -> & H0 & Ht).
    apply matches_label in H0. apply matches_groups in Ht.
    destruct Ht as (labels & Hall & ->).
    rewrite <- concat_dotted, split_concat; [|discriminate|].
    + intros l [<-|Hin]; [assumption|].
      rewrite Forall_forall in Hall. now apply Hall.
    + constructor; [now apply label_ok_no_dot|].
      rewrite Forall_forall in *. intros l Hl.
      now apply label_ok_no_dot, Hall.
  - intros Hall.
    destruct (split "." domain) as [|l0 labels] eqn:Es;
      [now destruct (split_nonempty "." domain)|].
    exists l0, (dotted labels). split.
    + rewrite <- concat_dotted, <- Es. symmetry. apply concat_split.
    + split.
      * apply matches_label, Hall. now left.
      * apply matches_groups. exists labels. split; [|reflexivity].
        apply Forall_forall. intros l Hl. apply Hall. now right.
Qed.

(** X19: [isValidDomain] accepts exactly the strings of three to 253
    characters whose parts between dots are all labels of two to
    sixty-three letters, digits or hyphens that neither begin nor end with a
    hyphen; no dot is needed. *)
Theorem isValidDomain_labels (domain : string) :
  isValidDomain domain = true
  <-> forallb label_ok (split "." domain) = true
      /\ 3 <= String.length domain <= 253.
Proof.
  unfold isValidDomain.
  rewrite !andb_true_iff, test_spec, matches_domainRegex.
  rewrite Nat.leb_le, Nat.leb_le.
  tauto.
Qed.

Lemma isValidDomain_labels_witness :
  (forallb label_ok (split "." "example.com") = true
   /\ 3 <= String.length "example.com" <= 253)
  /\ isValidDomain "localhost" = true.
Proof.
  split.
  - apply (proj1 (isValidDomain_labels "example.com")). reflexivity.
  - apply (proj2 (isValidDomain_labels "localhost")).
    split; [reflexivity | simpl; lia].
Defined.

(** X20: [isValidDomain] refuses every domain one of whose parts between
    dots has fewer than two or more than sixty-three characters. *)
Theorem isValidDomain_refuses_short_labels (domain l : string) :
  In l (split "." domain) ->
  String.length l < 2 \/ 63 < String.length l ->
  isValidDomain domain = false.
Proof.
  intros Hin Hlen. destruct (isValidDomain domain) eqn:E; [|reflexivity].
  exfalso. unfold isValidDomain in E. rewrite !andb_true_iff in E.
  destruct E as [[Hre _] _].
  apply test_spec, matches_domainRegex in Hre.
  rewrite forallb_forall in Hre. apply Hre in Hin.
  unfold label_ok in Hin. cbv zeta in Hin. rewrite !andb_true_iff in Hin.
  destruct Hin as ((((Hlo & Hhi) & _) & _) & _).
  apply Nat.leb_le in Hlo, Hhi. rewrite list_ascii_length in Hlo, Hhi. lia.
Qed.

Lemma isValidDomain_refuses_short_labels_witness :
  isValidDomain "x.org" = false.
Proof.
  apply (isValidDomain_refuses_short_labels "x.org" "x").
  - simpl. tauto.
  - left. simpl. lia.
Defined.
